(** * Inference service ([inference-service/server.py])

    A shallow embedding of the audio-classification HTTP service: the
    waveform normalisation ([pad_or_trim], [preprocess_audio_data]), the
    classifier adapter ([inference_from_melspec]), the temporary-file
    handling of [process_audio_file] and the request handler
    [predict_audio].

    Library code (librosa, noisereduce, TensorFlow, tempfile naming) is not
    part of the repository; it is taken as an interface, [Libraries], whose
    operations may raise.  Everything the repository itself writes is
    modelled definition by definition. *)

From Stdlib Require Import ZArith QArith List String Ascii Lia.
From stdpp Require Import gmap strings list pretty.

Local Open Scope Z_scope.

(** ** Exceptions *)

(** Python exceptions that can reach the handler.  Both constructors are
    subclasses of [Exception]: [fastapi.HTTPException] derives from
    Starlette's [HTTPException(Exception)], and everything the numeric
    libraries raise ([ParameterError], [ValueError], [OSError], ...) is an
    [Exception] too. *)
Inductive exn : Type :=
| HTTPException (status_code : Z) (detail : string)
| LibraryError (msg : string).

(** A call that either raises or returns. *)
Definition result (A : Type) : Type := (exn + A)%type.

Definition ok {A} (a : A) : result A := inr a.
Definition raise {A} (e : exn) : result A := inl e.

Definition rbind {A B} (r : result A) (k : A -> result B) : result B :=
  match r with
  | inl e => inl e
  | inr a => k a
  end.

Declare Scope result_scope.
Delimit Scope result_scope with result.
Notation "'let?' x ':=' c 'in' k" := (rbind c (fun x => k))
  (at level 10, x pattern, c at level 100, k at level 200) : result_scope.
Local Open Scope result_scope.

(** ** The library interface *)

(** [status] constants of [fastapi.status] used by the handler. *)
Definition HTTP_400_BAD_REQUEST : Z := 400.
Definition HTTP_413_REQUEST_ENTITY_TOO_LARGE : Z := 413.
Definition HTTP_500_INTERNAL_SERVER_ERROR : Z := 500.

Inductive event : Type :=
| EvReadBody                       (* await file.read() *)
| EvTempCreate (path : string)     (* tempfile.NamedTemporaryFile(...) *)
| EvTempWrite (path : string) (size : Z)  (* temp_file.write(file_content) *)
| EvDecode (path : string)         (* librosa.load(temp_path, sr=None) *)
| EvPreprocess                     (* preprocess_audio_data(...) *)
| EvUnlink (path : string)         (* os.unlink(temp_path) *)
| EvInference.                     (* inference_from_melspec(...) *)

Class Libraries : Type := {
  (** one audio sample (a float) and the value [np.pad] fills with *)
  sample : Type;
  sample_zero : sample;
  (** a 2-D / 3-D float array *)
  tensor : Type;
  tensor_shape : tensor -> list Z;
  (** [librosa.load(path, sr=None)] on the bytes stored at [path] *)
  librosa_load : list Byte.byte -> result (list sample * Z);
  (** [librosa.resample(y, orig_sr=, target_sr=)] *)
  librosa_resample : list sample -> Z -> Z -> result (list sample);
  (** [nr.reduce_noise(y=, sr=)] *)
  nr_reduce_noise : list sample -> Z -> result (list sample);
  (** [librosa.feature.melspectrogram(y=, sr=, n_mels=)] *)
  librosa_melspectrogram : list sample -> Z -> Z -> result tensor;
  (** [librosa.power_to_db(S, ref=np.max)] *)
  librosa_power_to_db_refmax : tensor -> result tensor;
  (** [x.astype(np.float32)], [x[..., np.newaxis]], [np.expand_dims(x, axis=0)] *)
  astype_float32 : tensor -> tensor;
  newaxis_last : tensor -> tensor;
  expand_dims_0 : tensor -> tensor;
  (** [tf.image.resize(x, size).numpy()] *)
  tf_image_resize : tensor -> list (option Z) -> result tensor;
  (** directory, prefix and random characters chosen by [tempfile] *)
  tempfile_stem : gmap string (list Byte.byte) -> string;
  (** whether writing this payload to this path, or closing the file
      afterwards, raises (a full disk, say) and after how many bytes have
      reached the file; [None] when both return *)
  temp_write_fault : string -> list Byte.byte -> option (exn * nat);
  (** [str(e)] *)
  exn_str : exn -> string;
  (** [datetime.now()], in seconds, as a function of what happened so far *)
  datetime_now : list event -> Q;
}.

(** ** Array helpers *)

Section Arrays.
Context {A : Type}.

(** [len(a)] *)
Definition len (a : list A) : Z := Z.of_nat (length a).

(** [a[:stop]]: a negative [stop] counts from the end. *)
Definition slice_to (a : list A) (stop : Z) : list A :=
  if stop <? 0 then take (Z.to_nat (len a + stop)) a
  else take (Z.to_nat stop) a.

(** [a[start:stop]] for non-negative bounds. *)
Definition slice (start stop : nat) (a : list A) : list A :=
  take (stop - start) (drop start a).

(** [np.pad(a, (0, k))]: constant mode, [k] fill values on the right. *)
Definition np_pad_right (fill : A) (a : list A) (k : Z) : list A :=
  a ++ replicate (Z.to_nat k) fill.
End Arrays.

(** ** Signal normalisation *)

Section Normalizer.
Context {L : Libraries}.

(** [denoise_audio], server.py lines 40-41. *)
Definition denoise_audio (audio_array : list sample) (sampling_rate : Z)
  : result (list sample) :=
  nr_reduce_noise audio_array sampling_rate.

(** [pad_or_trim], server.py lines 43-50.  [sampling_rate] and [max_len]
    are integers, as in every call of the repository; on their product the
    [int()] of line 44 is the identity. *)
Definition pad_or_trim (audio_array : list sample) (sampling_rate max_len : Z)
  : list sample :=
  let desired_len := max_len * sampling_rate in
  if len audio_array <? desired_len
  then np_pad_right sample_zero audio_array (desired_len - len audio_array)
  else slice_to audio_array desired_len.

(** [to_melspectrogram], server.py lines 52-58. *)
Definition to_melspectrogram (audio_array : list sample)
    (sampling_rate n_mels : Z) : result tensor :=
  let? mel_spec := librosa_melspectrogram audio_array sampling_rate n_mels in
  let? mel_spec_db := librosa_power_to_db_refmax mel_spec in
  let mel_spec_db := astype_float32 mel_spec_db in
  let mel_spec_db := newaxis_last mel_spec_db in
  ok mel_spec_db.

(** The first statement of [preprocess_audio_data] (lines 63-64). *)
Definition resample_if_needed (audio_array : list sample)
    (original_sampling_rate target_sampling_rate : Z) : result (list sample) :=
  if negb (original_sampling_rate =? target_sampling_rate)
  then librosa_resample audio_array original_sampling_rate target_sampling_rate
  else ok audio_array.

(** Lines 63-68 of [preprocess_audio_data]: the waveform handed to
    [to_melspectrogram]. *)
Definition normalized_waveform (audio_array : list sample)
    (original_sampling_rate target_sampling_rate max_len : Z)
  : result (list sample) :=
  let? audio_array :=
    resample_if_needed audio_array original_sampling_rate target_sampling_rate in
  let? audio_array := denoise_audio audio_array target_sampling_rate in
  let audio_array := pad_or_trim audio_array target_sampling_rate max_len in
  ok audio_array.

(** [preprocess_audio_data], server.py lines 60-71. *)
Definition preprocess_audio_data (audio_array : list sample)
    (original_sampling_rate target_sampling_rate max_len : Z) : result tensor :=
  let? audio_array :=
    normalized_waveform audio_array original_sampling_rate
                        target_sampling_rate max_len in
  to_melspectrogram audio_array target_sampling_rate 40.
End Normalizer.

(** ** Classifier adapter *)

(** The ten known labels, server.py lines 30-33. *)
Definition class_names : list string :=
  [ "bobfly1"; "ducfly"; "brratt1"; "barant1"; "squcuc1";
    "greant1"; "bubwre1"; "oliwoo1"; "fepowl"; "butwoo1" ]%string.

(** Running maximum used by [np.argmax] / [np.max] on finite values: the
    first occurrence of the largest value wins, a later value replaces the
    current best only when it is strictly larger. *)
Fixpoint argmax_from (best : Q) (best_i i : nat) (l : list Q) : nat :=
  match l with
  | [] => best_i
  | x :: t =>
      if Qle_bool x best then argmax_from best best_i (S i) t
      else argmax_from x i (S i) t
  end.

Fixpoint max_from (best : Q) (l : list Q) : Q :=
  match l with
  | [] => best
  | x :: t => if Qle_bool x best then max_from best t else max_from x t
  end.

(** [np.argmax(pred)] on the flattened array; empty input raises. *)
Definition np_argmax (l : list Q) : result nat :=
  match l with
  | [] => raise (LibraryError "ValueError: attempt to get argmax of an empty sequence")
  | x :: t => ok (argmax_from x 0 1 t)
  end.

(** [np.max(pred)] *)
Definition np_max (l : list Q) : result Q :=
  match l with
  | [] => raise (LibraryError "ValueError: zero-size array to reduction operation maximum which has no identity")
  | x :: t => ok (max_from x t)
  end.

(** [names[i]] for a non-negative index. *)
Definition list_getitem (names : list string) (i : nat) : result string :=
  match names !! i with
  | Some s => ok s
  | None => raise (LibraryError "IndexError: list index out of range")
  end.

Section Classifier.
Context {L : Libraries}.

(** The loaded Keras model: its declared [input_shape] (batch dimension
    [None]) and its forward pass, which yields one row per batch item. *)
Record keras_model : Type := {
  input_shape : list (option Z);
  model_predict : tensor -> result (list (list Q));
}.

(** Lines 76-79 of [inference_from_melspec]: resize unless the shapes
    already agree. *)
Definition resize_to_model (mel_spec_db : tensor) (model : keras_model)
  : result tensor :=
  if negb (bool_decide (slice 1 3 (input_shape model)
                        = Some <$> slice 1 3 (tensor_shape mel_spec_db)))
  then tf_image_resize mel_spec_db (slice 1 3 (input_shape model))
  else ok mel_spec_db.

(** [inference_from_melspec], server.py lines 73-89. *)
Definition inference_from_melspec (mel_spec_db : tensor) (model : keras_model)
    (class_names : list string) : result (string * Q) :=
  let? mel_spec_resized := resize_to_model mel_spec_db model in
  let mel_spec_resized := expand_dims_0 mel_spec_resized in
  let? pred := model_predict model mel_spec_resized in
  let? pred_label := np_argmax (concat pred) in
  let? confidence := np_max (concat pred) in
  let? name := list_getitem class_names pred_label in
  ok (name, confidence).
End Classifier.

(** ** File names *)

(** [c.lower()] on one character. *)
Definition ascii_lower (c : ascii) : ascii :=
  let n := nat_of_ascii c in
  if ((65 <=? n)%nat && (n <=? 90)%nat)%bool then ascii_of_nat (n + 32) else c.

(** [s.lower()] *)
Fixpoint str_lower (s : string) : string :=
  match s with
  | EmptyString => EmptyString
  | String c r => String (ascii_lower c) (str_lower r)
  end.

(** [s[n:]] *)
Fixpoint str_drop (n : nat) (s : string) : string :=
  match n, s with
  | O, _ => s
  | S n', String _ r => str_drop n' r
  | S _, EmptyString => EmptyString
  end.

(** [s.endswith(suffix)]: the last [len(suffix)] characters are [suffix]. *)
Definition str_endswith (s suffix : string) : bool :=
  ((String.length suffix <=? String.length s)%nat
   && String.eqb (str_drop (String.length s - String.length suffix) s) suffix)%bool.

(** [s.endswith((suffix1, suffix2, ...))] *)
Definition str_endswith_any (s : string) (suffixes : list string) : bool :=
  existsb (str_endswith s) suffixes.

(** The tuple of line 162. *)
Definition accepted_extensions : list string :=
  [ ".mp3"; ".wav"; ".m4a" ]%string.

(** The interface wording, independent of how the handler computes it.
    Two characters are the same letter up to case when they are equal, or
    one is a capital [A]..[Z] and the other its small letter, 32 code
    points further on. *)
Definition is_capital (c : ascii) : Prop :=
  (65 <= nat_of_ascii c <= 90)%nat.

Inductive same_letter : ascii -> ascii -> Prop :=
| same_letter_exact (c : ascii) : same_letter c c
| same_letter_capital_small (u l : ascii) :
    is_capital u -> nat_of_ascii l = (nat_of_ascii u + 32)%nat ->
    same_letter u l
| same_letter_small_capital (l u : ascii) :
    is_capital u -> nat_of_ascii l = (nat_of_ascii u + 32)%nat ->
    same_letter l u.

(** Two strings are equal up to case, letter by letter. *)
Inductive ci_equal : string -> string -> Prop :=
| ci_equal_empty : ci_equal EmptyString EmptyString
| ci_equal_char (a b : ascii) (s t : string) :
    same_letter a b -> ci_equal s t ->
    ci_equal (String a s) (String b t).

(** A name ends with an extension, ignoring case, when it splits into a
    stem and a tail that equals the extension up to case. *)
Definition ends_with_ci (name ext : string) : Prop :=
  exists stem tail : string, name = stem +:+ tail /\ ci_equal tail ext.

Definition accepted_extension (name : string) : Prop :=
  ends_with_ci name ".mp3" \/ ends_with_ci name ".wav" \/ ends_with_ci name ".m4a".

(** ** The world: temporary files and what has been done so far *)

Record world : Type := World {
  files : gmap string (list Byte.byte);
  trace : list event;
}.

(** A statement sequence that reads and changes the world and either
    returns or raises. *)
Definition M (A : Type) : Type := world -> world * result A.

Definition wret {A} (a : A) : M A := fun w => (w, ok a).
Definition wraise {A} (e : exn) : M A := fun w => (w, raise e).

Definition wbind {A B} (m : M A) (k : A -> M B) : M B :=
  fun w =>
    match m w with
    | (w1, inl e) => (w1, inl e)
    | (w1, inr a) => k a w1
    end.

(** A pure library call made from a stateful context. *)
Definition lift {A} (r : result A) : M A := fun w => (w, r).

(** Record that a step was carried out. *)
Definition emit (ev : event) : M unit :=
  fun w => (World (files w) (trace w ++ [ev]), ok tt).

(** [if cond: body] with nothing after it in the branch. *)
Definition wwhen (cond : bool) (body : M unit) : M unit :=
  if cond then body else wret tt.

(** [try: body finally: cleanup].  The cleanup runs whether [body]
    returned or raised; an exception raised by the cleanup replaces the
    outcome of [body]. *)
Definition try_finally {A} (body : M A) (cleanup : M unit) : M A :=
  fun w =>
    let '(w1, r) := body w in
    match cleanup w1 with
    | (w2, inl e) => (w2, inl e)
    | (w2, inr _) => (w2, r)
    end.

(** [try: body except Exception as e: handler(e)].  Every [exn] is an
    [Exception], so every raise of [body] is handled. *)
Definition try_except {A} (body : M A) (handler : exn -> M A) : M A :=
  fun w =>
    match body w with
    | (w1, inl e) => handler e w1
    | (w1, inr a) => (w1, inr a)
    end.

Declare Scope world_scope.
Delimit Scope world_scope with world.
Notation "x <- c ;; k" := (wbind c (fun x => k))
  (at level 100, c at next level, right associativity) : world_scope.
Notation "c ;;; k" := (wbind c (fun _ => k))
  (at level 100, right associativity) : world_scope.
Local Open Scope world_scope.

(** [loop.run_in_executor(executor, f)] followed by [await]: the caller
    resumes with what [f] returned, or with the exception [f] raised. *)
Definition run_in_executor {A} (f : M A) : M A := f.

(** ** Decoding an upload *)

Section Decoder.
Context {L : Libraries}.

(** [tempfile.NamedTemporaryFile(delete=False, suffix='.mp3')]: an empty
    file appears under the chosen name. *)
Definition NamedTemporaryFile (suffix : string) : M string :=
  fun w =>
    let name := tempfile_stem (files w) +:+ suffix in
    (World (<[name := []]> (files w)) (trace w ++ [EvTempCreate name]), ok name).

(** [temp_file.write(file_content)] and the close at the end of [with].
    Either may raise; a prefix of the bytes has then reached the file, and
    the file stays where it is, having been created with [delete=False]. *)
Definition temp_file_write (name : string) (file_content : list Byte.byte)
  : M unit :=
  fun w =>
    match temp_write_fault name file_content with
    | None =>
        (World (<[name := file_content]> (files w))
               (trace w ++ [EvTempWrite name (len file_content)]), ok tt)
    | Some (e, n) =>
        (World (<[name := take n file_content]> (files w))
               (trace w ++ [EvTempWrite name (len (take n file_content))]),
         raise e)
    end.

(** The [with] block of [_process_sync], lines 134-136: it yields
    [temp_path], or raises what the write or the close raised. *)
Definition temp_file_block (file_content : list Byte.byte) : M string :=
  temp_file <- NamedTemporaryFile ".mp3" ;;
  temp_file_write temp_file file_content ;;;
  wret temp_file.

(** [librosa.load(temp_path, sr=None)] *)
Definition load_path (path : string) : M (list sample * Z) :=
  fun w =>
    (World (files w) (trace w ++ [EvDecode path]),
     match files w !! path with
     | Some bytes => librosa_load bytes
     | None => raise (LibraryError "FileNotFoundError")
     end).

(** [os.path.exists(temp_path)] *)
Definition os_path_exists (path : string) : M bool :=
  fun w => (w, ok (bool_decide (is_Some (files w !! path)))).

(** [os.unlink(temp_path)] *)
Definition os_unlink (path : string) : M unit :=
  fun w =>
    match files w !! path with
    | Some _ => (World (delete path (files w)) (trace w ++ [EvUnlink path]), ok tt)
    | None => (w, raise (LibraryError "FileNotFoundError"))
    end.

(** The inner function [_process_sync], server.py lines 133-152. *)
Definition _process_sync (file_content : list Byte.byte) : M tensor :=
  temp_path <- temp_file_block file_content ;;
  try_finally
    (loaded <- load_path temp_path ;;
     let '(audio_array, original_sampling_rate) := loaded in
     mel_spec_db <- (emit EvPreprocess ;;;
                     lift (preprocess_audio_data audio_array
                             original_sampling_rate 16000 5)) ;;
     wret mel_spec_db)
    (path_exists <- os_path_exists temp_path ;;
     wwhen path_exists (os_unlink temp_path)).

(** [process_audio_file], server.py lines 130-155. *)
Definition process_audio_file (file_content : list Byte.byte)
    (filename : string) : M tensor :=
  run_in_executor (_process_sync file_content).
End Decoder.

(** ** The request handler *)

(** [MAX_FILE_SIZE = 50 * 1024 * 1024], line 24. *)
Definition MAX_FILE_SIZE : Z := 50 * 1024 * 1024.

(** What the handler uses of [UploadFile]. *)
Record UploadFile : Type := {
  filename : string;
  body : list Byte.byte;
}.

(** [PredictionResponse], lines 35-38. *)
Record PredictionResponse : Type := {
  ebird_code : string;
  confidence : Q;
  processing_time : Q;
}.

Section Handler.
Context {L : Libraries}.

(** [await file.read()] *)
Definition file_read (file : UploadFile) : M (list Byte.byte) :=
  emit EvReadBody ;;; wret (body file).

(** [datetime.now()] *)
Definition now : M Q := fun w => (w, ok (datetime_now (trace w))).

(** [predict_audio], server.py lines 158-207.  [model] is the module
    global: [None] until [load_model] has found the artifact. *)
Definition predict_audio (model : option keras_model) (file : UploadFile)
  : M PredictionResponse :=
  start_time <- now ;;
  wwhen (negb (str_endswith_any (str_lower (filename file)) accepted_extensions))
    (wraise (HTTPException HTTP_400_BAD_REQUEST
               "Only audio files (.mp3, .wav, .m4a) are allowed")) ;;;
  match model with
  | None =>
      wraise (HTTPException HTTP_500_INTERNAL_SERVER_ERROR
                "Model not loaded. Please check server configuration.")
  | Some model =>
      try_except
        (file_content <- file_read file ;;
         wwhen (len file_content >? MAX_FILE_SIZE)
           (wraise (HTTPException HTTP_413_REQUEST_ENTITY_TOO_LARGE
                      "File too large. Maximum size is 50MB.")) ;;;
         mel_spec_db <- process_audio_file file_content (filename file) ;;
         prediction <-
            run_in_executor
              (emit EvInference ;;;
               lift (inference_from_melspec mel_spec_db model class_names)) ;;
         let '(predicted_ebird_code, confidence) := prediction in
         end_time <- now ;;
         wret {| ebird_code := predicted_ebird_code;
                 confidence := confidence;
                 processing_time := end_time - start_time |})
        (fun e =>
           wraise (HTTPException HTTP_500_INTERNAL_SERVER_ERROR
                     ("Error processing audio file: " +:+ exn_str e)))
  end.

(** The status line FastAPI sends: 200 for a returned body, the
    exception's [status_code] for an [HTTPException], 500 for anything
    else that escapes the handler. *)
Definition http_status {A} (r : result A) : Z :=
  match r with
  | inr _ => 200
  | inl (HTTPException status_code _) => status_code
  | inl (LibraryError _) => 500
  end.

(** The [detail] of the error response, if any. *)
Definition http_detail {A} (r : result A) : option string :=
  match r with
  | inl (HTTPException _ detail) => Some detail
  | _ => None
  end.
End Handler.

(** The three [HTTPException]s the handler raises by name (lines 163, 169
    and 178). *)
Definition bad_extension_response : exn :=
  HTTPException 400 "Only audio files (.mp3, .wav, .m4a) are allowed".

Definition model_not_loaded_response : exn :=
  HTTPException 500 "Model not loaded. Please check server configuration.".

Definition file_too_large : exn :=
  HTTPException 413 "File too large. Maximum size is 50MB.".

(** The path named by an event, if it names one. *)
Definition event_path (ev : event) : option string :=
  match ev with
  | EvTempCreate path | EvTempWrite path _ | EvDecode path | EvUnlink path =>
      Some path
  | EvReadBody | EvPreprocess | EvInference => None
  end.

(** ** A concrete instance of the library interface

    Small stand-ins for the libraries, used to run the definitions above on
    concrete requests.  Samples are integers, a tensor is its shape. *)
Module Demo.
Definition byte_sample (b : Byte.byte) : Z := Z.of_N (Byte.to_N b) - 128.

(** An empty payload is not an audio container; a payload starting with
    byte [xff] decodes at 16 kHz, any other at 8 kHz. *)
Definition load (bytes : list Byte.byte) : result (list Z * Z) :=
  match bytes with
  | [] => raise (LibraryError "NoBackendError")
  | Byte.xff :: rest => ok (byte_sample <$> rest, 16000)
  | _ => ok (byte_sample <$> bytes, 8000)
  end.

(** Zero-order hold from 8 kHz to 16 kHz. *)
Definition resample (y : list Z) (orig_sr target_sr : Z) : result (list Z) :=
  ok (y ≫= (fun x => [x; x])).

(** Refuses a signal whose first sample is the most negative one. *)
Definition reduce_noise (y : list Z) (sr : Z) : result (list Z) :=
  match y with
  | -128 :: _ => raise (LibraryError "ValueError: noise profile")
  | _ => ok y
  end.

Definition melspectrogram (y : list Z) (sr n_mels : Z) : result (list Z) :=
  ok [n_mels; 1 + len y / 512].

Definition resize (t : list Z) (size : list (option Z)) : result (list Z) :=
  ok ((default 0 <$> size) ++ drop 2 t).

(** The temporary directory has room for 64 bytes. *)
Definition write_fault (path : string) (payload : list Byte.byte)
  : option (exn * nat) :=
  if 64 <? len payload
  then Some (LibraryError "OSError: [Errno 28] No space left on device", 64%nat)
  else None.

Definition str (e : exn) : string :=
  match e with
  | HTTPException status_code detail => pretty status_code +:+ ": " +:+ detail
  | LibraryError msg => msg
  end.

Definition libs : Libraries := {|
  sample := Z;
  sample_zero := 0;
  tensor := list Z;
  tensor_shape := fun t => t;
  librosa_load := load;
  librosa_resample := resample;
  nr_reduce_noise := reduce_noise;
  librosa_melspectrogram := melspectrogram;
  librosa_power_to_db_refmax := fun t => ok t;
  astype_float32 := fun t => t;
  newaxis_last := fun t => t ++ [1];
  expand_dims_0 := fun t => 1 :: t;
  tf_image_resize := resize;
  tempfile_stem := fun _ => "/tmp/tmpk3x9q2ab"%string;
  temp_write_fault := write_fault;
  exn_str := str;
  datetime_now := fun tr => inject_Z (len tr);
|}.

Definition scores : list Q :=
  [ 1#100; 3#100; 2#100; 85#100; 1#100; 2#100; 1#100; 3#100; 1#100; 1#100 ]%Q.

Definition model : keras_model (L := libs) := {|
  input_shape := [None; Some 40; Some 157; Some 1];
  model_predict := fun _ => ok [scores];
|}.

Definition empty_world : world := World ∅ [].

Definition upload (name : string) (payload : list Byte.byte) : UploadFile :=
  {| filename := name; body := payload |}.

(** A payload of 65 bytes, one more than the temporary directory takes. *)
Definition long_payload : list Byte.byte := replicate 65 Byte.x2a.

(** 50 MiB and one byte of silence. *)
Definition oversized_upload : UploadFile :=
  upload "dawn.mp3" (replicate (Z.to_nat (MAX_FILE_SIZE + 1)) Byte.x00).
End Demo.

(** ** Start-up and health *)

(** [MODEL_PATH], line 23. *)
Definition MODEL_PATH : string := "kicau_model.h5".

(** The body of [GET /health], lines 211-217. *)
Record HealthResponse : Type := {
  health_status : string;
  model_loaded : bool;
  model_input_shape : option (list (option Z));
  health_class_names : list string;
  timestamp : Q;
}.

Section Startup.
Context {L : Libraries}.

(** [keras.models.load_model(MODEL_PATH)] on the bytes of the artifact. *)
Variable keras_load_model : list Byte.byte -> result keras_model.

Definition load_model_path (path : string) : M keras_model :=
  fun w =>
    (w, match files w !! path with
        | Some bytes => keras_load_model bytes
        | None => raise (LibraryError "OSError: no file or directory")
        end).

(** [load_model], server.py lines 91-102.  The module global [model] is
    passed in and its new value returned; the log lines are left out. *)
Definition load_model (model : option keras_model) : M (option keras_model) :=
  try_except
    (path_exists <- os_path_exists MODEL_PATH ;;
     if (path_exists : bool)
     then (loaded <- load_model_path MODEL_PATH ;; wret (Some loaded))
     else wret model)
    (fun e => wret model).

(** The start-up half of [lifespan], lines 105-110: the global starts as
    [None] (line 26) and [load_model] runs once. *)
Definition lifespan_startup : M (option keras_model) :=
  load_model None.

(** [health_check], server.py lines 209-217. *)
Definition health_check (model : option keras_model) : M HealthResponse :=
  timestamp <- now ;;
  wret {| health_status := "healthy";
          model_loaded := match model with Some _ => true | None => false end;
          model_input_shape :=
            match model with
            | Some model => Some (input_shape model)
            | None => None
            end;
          health_class_names := class_names;
          timestamp := timestamp |}.
End Startup.

(** ** Names used in the statements below *)

Section RunNames.
Context {L : Libraries}.

(** The name [_process_sync] gives its temporary file in world [w]. *)
Definition temp_name (w : world) : string :=
  tempfile_stem (files w) +:+ ".mp3".

(** What the [try] block of [_process_sync] computes from the uploaded
    bytes: decode at the native rate, then preprocess. *)
Definition decode_and_preprocess (file_content : list Byte.byte)
  : result tensor :=
  let? loaded := librosa_load file_content in
  let '(audio_array, original_sampling_rate) := loaded in
  preprocess_audio_data audio_array original_sampling_rate 16000 5.

(** The steps [_process_sync] records for an upload, in order. *)
Definition process_steps (name : string) (file_content : list Byte.byte)
  : list event :=
  [EvTempCreate name; EvTempWrite name (len file_content); EvDecode name]
  ++ match librosa_load file_content with
     | inl _ => []
     | inr _ => [EvPreprocess]
     end
  ++ [EvUnlink name].

(** What [_process_sync] returns or raises for an upload written under
    [name]: what the write raised, or else the outcome of the [try] block. *)
Definition upload_outcome (name : string) (file_content : list Byte.byte)
  : result tensor :=
  match temp_write_fault name file_content with
  | Some (e, _) => raise e
  | None => decode_and_preprocess file_content
  end.

(** The steps [_process_sync] records, a failing write included. *)
Definition upload_steps (name : string) (file_content : list Byte.byte)
  : list event :=
  match temp_write_fault name file_content with
  | Some (_, n) =>
      [EvTempCreate name; EvTempWrite name (len (take n file_content))]
  | None => process_steps name file_content
  end.

(** The 500 of the [except Exception] clause for an exception [e]. *)
Definition processing_error (e : exn) : exn :=
  HTTPException 500 ("Error processing audio file: " +:+ exn_str e).

(** The file system after the temporary file came and went. *)
Definition files_after (name : string) (file_content : list Byte.byte)
    (fs : gmap string (list Byte.byte)) : gmap string (list Byte.byte) :=
  delete name (<[name := file_content]> (<[name := []]> fs)).

(** The file system [_process_sync] leaves behind, a failing write
    included. *)
Definition upload_files (name : string) (file_content : list Byte.byte)
    (fs : gmap string (list Byte.byte)) : gmap string (list Byte.byte) :=
  match temp_write_fault name file_content with
  | Some (_, n) => <[name := take n file_content]> (<[name := []]> fs)
  | None => files_after name file_content fs
  end.
End RunNames.

(** A stand-in for the Keras loader: an empty artifact is corrupt, any
    other loads as the demonstration model. *)
Module DemoArtifact.
Definition keras_load_model (bytes : list Byte.byte)
  : result (keras_model (L := Demo.libs)) :=
  match bytes with
  | [] => raise (LibraryError "OSError: file signature not found")
  | _ => ok Demo.model
  end.

(** A model with twelve outputs whose largest score is the last one, and a
    model that returns no scores at all. *)
Definition wide_scores : list Q :=
  [ 1#100; 1#100; 1#100; 1#100; 1#100; 1#100;
    1#100; 1#100; 1#100; 1#100; 1#100; 89#100 ]%Q.

Definition wide_model : keras_model (L := Demo.libs) := {|
  input_shape := [None; Some 40; Some 157; Some 1];
  model_predict := fun _ => ok [wide_scores];
|}.

Definition silent_model : keras_model (L := Demo.libs) := {|
  input_shape := [None; Some 40; Some 157; Some 1];
  model_predict := fun _ => ok [];
|}.

Definition world_with_artifact : world :=
  World {[ MODEL_PATH := [Byte.x89; Byte.x48] ]} [].

Definition world_with_corrupt_artifact : world :=
  World {[ MODEL_PATH := [] ]} [].
End DemoArtifact.

(** * Properties *)

(** ** Padding and trimming *)

Section NormalizerFacts.
Context {L : Libraries}.
Implicit Types (a d : list sample) (sr max_len : Z).

Lemma len_app a d : len (a ++ d) = len a + len d.
Proof. unfold len. rewrite length_app. lia. Qed.

Lemma len_replicate (k : Z) (x : sample) :
  len (replicate (Z.to_nat k) x) = Z.max 0 k.
Proof. unfold len. rewrite length_replicate. lia. Qed.

Lemma len_take (n : Z) a : 0 <= n <= len a -> len (take (Z.to_nat n) a) = n.
Proof. unfold len. intros Hn. rewrite length_take. lia. Qed.

Lemma pad_or_trim_short a sr max_len :
  len a < max_len * sr ->
  pad_or_trim a sr max_len
  = a ++ replicate (Z.to_nat (max_len * sr - len a)) sample_zero.
Proof.
  intros Hlt. unfold pad_or_trim, np_pad_right.
  destruct (Z.ltb_spec (len a) (max_len * sr)) as [_ | Hge]; [reflexivity | lia].
Qed.

Lemma pad_or_trim_long a sr max_len :
  0 <= max_len * sr <= len a ->
  pad_or_trim a sr max_len = take (Z.to_nat (max_len * sr)) a.
Proof.
  intros [Hnn Hle]. unfold pad_or_trim, slice_to.
  destruct (Z.ltb_spec (len a) (max_len * sr)) as [Hlt | _]; [lia |].
  destruct (Z.ltb_spec (max_len * sr) 0) as [Hneg | _]; [lia | reflexivity].
Qed.

Lemma pad_or_trim_len a sr max_len :
  0 <= max_len * sr -> len (pad_or_trim a sr max_len) = max_len * sr.
Proof.
  intros Hnn. destruct (Z.lt_ge_cases (len a) (max_len * sr)) as [Hlt | Hge].
  - rewrite pad_or_trim_short by assumption.
    rewrite len_app, len_replicate. lia.
  - rewrite pad_or_trim_long by lia. apply len_take. lia.
Qed.

(** A zero-length waveform comes out of [pad_or_trim] as zeros only. *)
Lemma pad_or_trim_nil sr max_len :
  0 <= max_len * sr ->
  pad_or_trim [] sr max_len = replicate (Z.to_nat (max_len * sr)) sample_zero.
Proof.
  intros Hnn. destruct (Z.eq_dec (max_len * sr) 0) as [Hz | Hnz].
  - rewrite pad_or_trim_long by (unfold len; simpl; lia).
    rewrite Hz. reflexivity.
  - rewrite pad_or_trim_short by (unfold len; simpl; lia).
    unfold len. simpl. rewrite Z.sub_0_r. reflexivity.
Qed.

(** C3: when [pad_or_trim] pads, the output is the input followed by
    zero-valued samples only (so its first [len(input)] samples are the
    input and every later sample is zero); when it truncates, the output
    is exactly the first [desired_len] samples of the input, that is, only
    trailing samples are removed. *)
Theorem pad_or_trim_pads_right_trims_tail a sr max_len :
  0 <= max_len * sr ->
  (len a < max_len * sr ->
     pad_or_trim a sr max_len
     = a ++ replicate (Z.to_nat (max_len * sr - len a)) sample_zero
     /\ take (length a) (pad_or_trim a sr max_len) = a
     /\ (forall (i : nat) (x : sample),
           (length a <= i)%nat ->
           pad_or_trim a sr max_len !! i = Some x -> x = sample_zero))
  /\ (max_len * sr <= len a ->
        pad_or_trim a sr max_len = take (Z.to_nat (max_len * sr)) a
        /\ exists removed : list sample,
             a = pad_or_trim a sr max_len ++ removed).
Proof.
  intros Hnn. split.
  - intros Hlt. rewrite pad_or_trim_short by assumption.
    split; [reflexivity |]. split.
    + rewrite take_app_length. reflexivity.
    + intros i x Hi Hx. rewrite lookup_app_r in Hx by assumption.
      apply lookup_replicate in Hx. tauto.
  - intros Hge. rewrite pad_or_trim_long by lia.
    split; [reflexivity |].
    exists (drop (Z.to_nat (max_len * sr)) a).
    symmetry. apply take_drop.
Qed.

(** The library calls in front of [pad_or_trim] decide whether
    [normalized_waveform] returns; [pad_or_trim] itself always does. *)
Lemma normalized_waveform_returns a sr target max_len (r d : list sample) :
  resample_if_needed a sr target = ok r ->
  denoise_audio r target = ok d ->
  normalized_waveform a sr target max_len = ok (pad_or_trim d target max_len).
Proof.
  intros Hr Hd. unfold normalized_waveform.
  rewrite Hr. simpl. rewrite Hd. reflexivity.
Qed.

(** [normalized_waveform] raises exactly what the resampler or the
    denoiser raised; the repository's own steps add no way to fail. *)
Lemma normalized_waveform_outcome a sr target max_len :
  normalized_waveform a sr target max_len
  = match resample_if_needed a sr target with
    | inl e => inl e
    | inr r =>
        match denoise_audio r target with
        | inl e => inl e
        | inr d => ok (pad_or_trim d target max_len)
        end
    end.
Proof.
  unfold normalized_waveform.
  destruct (resample_if_needed a sr target) as [e | r]; [reflexivity |].
  simpl. destruct (denoise_audio r target); reflexivity.
Qed.

(** C1: for a non-empty waveform at any sample rate, once the resampler
    and the denoiser have returned, the normalisation (target rate 16000,
    5 seconds) returns an array of exactly 16000 * 5 = 80000 samples: a
    shorter denoised signal is padded, a longer one truncated, one of
    equal length is returned as it is. *)
Theorem normalized_waveform_length a sr (r d : list sample) :
  a <> [] ->
  resample_if_needed a sr 16000 = ok r ->
  denoise_audio r 16000 = ok d ->
  exists out : list sample,
    normalized_waveform a sr 16000 5 = ok out
    /\ len out = 16000 * 5
    /\ len out = 80000
    /\ (len d < 80000 ->
          out = d ++ replicate (Z.to_nat (80000 - len d)) sample_zero)
    /\ (80000 < len d -> out = take (Z.to_nat 80000) d)
    /\ (len d = 80000 -> out = d).
Proof.
  intros _ Hr Hd. exists (pad_or_trim d 16000 5).
  split; [eapply normalized_waveform_returns; eassumption |].
  assert (Hlen : len (pad_or_trim d 16000 5) = 80000)
    by (rewrite pad_or_trim_len; lia).
  split; [rewrite Hlen; lia |]. split; [exact Hlen |].
  split; [| split].
  - intros Hlt. rewrite pad_or_trim_short by lia.
    replace (5 * 16000) with 80000 by lia. reflexivity.
  - intros Hgt. rewrite pad_or_trim_long by lia.
    replace (5 * 16000) with 80000 by lia. reflexivity.
  - intros Heq. rewrite pad_or_trim_long by lia.
    apply take_ge. unfold len in Heq. lia.
Qed.

End NormalizerFacts.

(** The theorem at a three-sample waveform: padded to eight samples, and
    trimmed to two. *)
Lemma pad_or_trim_pads_right_trims_tail_witness :
  pad_or_trim (L := Demo.libs) [7; 8; 9] 4 2 = [7; 8; 9; 0; 0; 0; 0; 0]
  /\ pad_or_trim (L := Demo.libs) [7; 8; 9] 1 2 = [7; 8].
Proof.
  split.
  - destruct (pad_or_trim_pads_right_trims_tail
                (L := Demo.libs) [7; 8; 9] 4 2 ltac:(lia)) as [Hpad _].
    destruct (Hpad ltac:(vm_compute; reflexivity)) as [Heq _].
    rewrite Heq. reflexivity.
  - destruct (pad_or_trim_pads_right_trims_tail
                (L := Demo.libs) [7; 8; 9] 1 2 ltac:(lia)) as [_ Htrim].
    destruct (Htrim ltac:(vm_compute; discriminate)) as [Heq _].
    rewrite Heq. reflexivity.
Defined.

(** The theorem at a three-sample recording at 8 kHz. *)
Lemma normalized_waveform_length_witness :
  exists out : list Z,
    normalized_waveform (L := Demo.libs) [7; 8; 9] 8000 16000 5 = ok out
    /\ len out = 80000.
Proof.
  destruct (normalized_waveform_length (L := Demo.libs)
              [7; 8; 9] 8000 [7; 7; 8; 8; 9; 9] [7; 7; 8; 8; 9; 9])
    as (out & Hout & _ & Hlen & _).
  - discriminate.
  - reflexivity.
  - reflexivity.
  - exists out. split; assumption.
Defined.

(** ** The classifier adapter *)

Section ArgmaxFacts.
Implicit Types (best x p : Q) (l row : list Q).

Lemma max_from_ge_best l best : (best <= max_from best l)%Q.
Proof.
  revert best. induction l as [| x t IH]; intros best; simpl.
  - apply Qle_refl.
  - destruct (Qle_bool x best) eqn:Hx.
    + apply IH.
    + apply Qle_trans with x; [| apply IH].
      apply Qlt_le_weak, Qnot_le_lt. intros Hle.
      apply Qle_bool_iff in Hle. congruence.
Qed.

Lemma max_from_upper l best p : p ∈ l -> (p <= max_from best l)%Q.
Proof.
  revert best. induction l as [| x t IH]; intros best Hin.
  - inversion Hin.
  - simpl. apply elem_of_cons in Hin as [-> | Hin].
    + destruct (Qle_bool x best) eqn:Hx.
      * apply Qle_trans with best; [| apply max_from_ge_best].
        apply Qle_bool_iff. exact Hx.
      * apply max_from_ge_best.
    + destruct (Qle_bool x best); apply IH; exact Hin.
Qed.

(** [argmax_from] returns a position that holds the running maximum. *)
Lemma argmax_from_position l best (best_i i : nat) :
  (argmax_from best best_i i l = best_i /\ max_from best l = best)
  \/ exists k : nat,
       argmax_from best best_i i l = (i + k)%nat
       /\ l !! k = Some (max_from best l).
Proof.
  revert best best_i i. induction l as [| x t IH]; intros best best_i i; simpl.
  - left. split; reflexivity.
  - destruct (Qle_bool x best) eqn:Hx.
    + destruct (IH best best_i (S i)) as [Hkeep | (k & Hj & Hk)].
      * left. exact Hkeep.
      * right. exists (S k). split; [rewrite Hj; lia | exact Hk].
    + right. destruct (IH x i (S i)) as [[Hj Hm] | (k & Hj & Hk)].
      * exists 0%nat. split; [rewrite Hj; lia |]. simpl. rewrite Hm. reflexivity.
      * exists (S k). split; [rewrite Hj; lia | exact Hk].
Qed.

(** Everything in front of the returned position is strictly smaller: the
    first occurrence of the maximum is the one reported. *)
Lemma argmax_from_first l best (best_i i : nat) :
  (best_i < i)%nat ->
  (forall (k : nat) p,
      l !! k = Some p -> (i + k < argmax_from best best_i i l)%nat ->
      (p < max_from best l)%Q)
  /\ ((best_i < argmax_from best best_i i l)%nat -> (best < max_from best l)%Q).
Proof.
  revert best best_i i. induction l as [| x t IH]; intros best best_i i Hlt; simpl.
  - split; [intros k p Hk; inversion Hk | lia].
  - destruct (Qle_bool x best) eqn:Hx.
    + destruct (IH best best_i (S i) ltac:(lia)) as [IHall IHbest].
      split; [| exact IHbest].
      intros [| k] p Hk Hpos; simpl in Hk.
      * inversion Hk; subst p.
        apply Qle_lt_trans with best; [apply Qle_bool_iff; exact Hx |].
        apply IHbest. lia.
      * apply (IHall k p Hk). lia.
    + assert (Hbx : (best < x)%Q).
      { apply Qnot_le_lt. intros Hle. apply Qle_bool_iff in Hle. congruence. }
      destruct (IH x i (S i) ltac:(lia)) as [IHall IHbest].
      split.
      * intros [| k] p Hk Hpos; simpl in Hk.
        -- inversion Hk; subst p. apply IHbest. lia.
        -- apply (IHall k p Hk). lia.
      * intros _. apply Qlt_le_trans with x; [exact Hbx | apply max_from_ge_best].
Qed.

(** [np.argmax] and [np.max] of a non-empty vector of finite values. *)
Lemma np_argmax_np_max row :
  row <> [] ->
  exists (i : nat) (m : Q),
    np_argmax row = ok i /\ np_max row = ok m
    /\ row !! i = Some m
    /\ (forall p, p ∈ row -> (p <= m)%Q)
    /\ (forall (j : nat) p, (j < i)%nat -> row !! j = Some p -> (p < m)%Q).
Proof.
  destruct row as [| x t]; [congruence | intros _].
  exists (argmax_from x 0 1 t), (max_from x t). simpl.
  split; [reflexivity |]. split; [reflexivity |]. split; [| split].
  - destruct (argmax_from_position t x 0 1) as [[Hj Hm] | (k & Hj & Hk)].
    + rewrite Hj, Hm. reflexivity.
    + rewrite Hj. exact Hk.
  - intros p Hin. apply elem_of_cons in Hin as [-> | Hin].
    + apply max_from_ge_best.
    + apply max_from_upper. exact Hin.
  - destruct (argmax_from_first t x 0 1 ltac:(lia)) as [Hall Hbest].
    intros [| j] p Hj Hp; simpl in Hp.
    + inversion Hp; subst p. apply Hbest. lia.
    + apply (Hall j p Hp). lia.
Qed.
End ArgmaxFacts.

Section ClassifierFacts.
Context {L : Libraries}.

Lemma class_names_length : length class_names = 10%nat.
Proof. reflexivity. Qed.

(** C7: for every feature tensor and every loaded model whose output, on
    the tensor prepared for it, is one vector of exactly 10 entries each in
    [0,1], [inference_from_melspec] returns a label and a confidence: the
    label is the entry of the fixed 10-entry class list at the index of the
    vector's (first) maximum, and the confidence is that maximum value,
    hence in [0,1]. *)
Theorem inference_label_in_class_list
    (mel_spec_db x : tensor) (model : keras_model) (row : list Q) :
  resize_to_model mel_spec_db model = ok x ->
  model_predict model (expand_dims_0 x) = ok [row] ->
  length row = 10%nat ->
  (forall p, p ∈ row -> (0 <= p)%Q /\ (p <= 1)%Q) ->
  exists (i : nat) (label : string) (conf : Q),
    inference_from_melspec mel_spec_db model class_names = ok (label, conf)
    /\ class_names !! i = Some label
    /\ label ∈ class_names
    /\ row !! i = Some conf
    /\ (forall p, p ∈ row -> (p <= conf)%Q)
    /\ (forall (j : nat) p, (j < i)%nat -> row !! j = Some p -> (p < conf)%Q)
    /\ (0 <= conf)%Q /\ (conf <= 1)%Q.
Proof.
  intros Hx Hpred Hlen Hrange.
  assert (Hne : row <> []) by (intros ->; discriminate).
  destruct (np_argmax_np_max row Hne) as (i & m & Hi & Hm & Hat & Hmax & Hfirst).
  assert (Hi10 : (i < length class_names)%nat).
  { rewrite class_names_length, <- Hlen. eapply lookup_lt_Some. exact Hat. }
  destruct (lookup_lt_is_Some_2 class_names i Hi10) as [label Hlabel].
  exists i, label, m.
  split.
  - unfold inference_from_melspec. rewrite Hx. simpl. rewrite Hpred. simpl.
    rewrite app_nil_r, Hi. simpl. rewrite Hm. simpl.
    unfold list_getitem. rewrite Hlabel. reflexivity.
  - split; [exact Hlabel |].
    split; [eapply list_elem_of_lookup_2; exact Hlabel |].
    split; [exact Hat |]. split; [exact Hmax |]. split; [exact Hfirst |].
    apply Hrange. eapply list_elem_of_lookup_2. exact Hat.
Qed.
End ClassifierFacts.

(** The theorem at the demonstration model, whose ten scores peak at
    position 3. *)
Lemma inference_label_in_class_list_witness :
  exists (label : string) (conf : Q),
    inference_from_melspec (L := Demo.libs) [40; 157; 1] Demo.model class_names
    = ok (label, conf)
    /\ label ∈ class_names /\ (0 <= conf)%Q /\ (conf <= 1)%Q.
Proof.
  destruct (inference_label_in_class_list (L := Demo.libs)
              [40; 157; 1] [40; 157; 1] Demo.model Demo.scores)
    as (i & label & conf & Hrun & _ & Hin & _ & _ & _ & H0 & H1).
  - reflexivity.
  - reflexivity.
  - reflexivity.
  - intros p Hp. unfold Demo.scores in Hp.
    repeat (apply elem_of_cons in Hp as [-> | Hp];
            [split; unfold Qle; simpl; lia |]).
    inversion Hp.
  - exists label, conf. repeat split; assumption.
Defined.

(** ** The extension check *)

Section FileNameFacts.
Implicit Types (s t p name ext : string).

Lemma str_length_app s t :
  String.length (s +:+ t) = (String.length s + String.length t)%nat.
Proof. induction s as [| c s IH]; simpl; [reflexivity | rewrite IH; reflexivity]. Qed.

Lemma str_lower_app s t : str_lower (s +:+ t) = str_lower s +:+ str_lower t.
Proof. induction s as [| c s IH]; simpl; [reflexivity | rewrite IH; reflexivity]. Qed.

Lemma str_drop_app p s : str_drop (String.length p) (p +:+ s) = s.
Proof. induction p as [| c p IH]; simpl; [destruct s; reflexivity | exact IH]. Qed.

(** [s == s[:n] + s[n:]] *)
Lemma str_drop_split (n : nat) s :
  (n <= String.length s)%nat -> exists p, s = p +:+ str_drop n s.
Proof.
  revert s. induction n as [| n IH]; intros s Hn.
  - exists EmptyString. destruct s; reflexivity.
  - destruct s as [| c s]; simpl in Hn; [lia |].
    destruct (IH s ltac:(lia)) as [p Hp].
    exists (String c p).
    change (String c s = String c (p +:+ str_drop n s)). f_equal. exact Hp.
Qed.

(** [endswith] holds exactly for the strings that are some prefix followed
    by the suffix. *)
Lemma str_endswith_iff s ext :
  str_endswith s ext = true <-> exists p, s = p +:+ ext.
Proof.
  unfold str_endswith. rewrite andb_true_iff, Nat.leb_le, String.eqb_eq. split.
  - intros [Hle Heq].
    destruct (str_drop_split (String.length s - String.length ext) s ltac:(lia))
      as [p Hp].
    exists p. rewrite <- Heq. exact Hp.
  - intros [p ->]. rewrite str_length_app. split; [lia |].
    replace (String.length p + String.length ext - String.length ext)%nat
      with (String.length p) by lia.
    apply str_drop_app.
Qed.

(** A lower-cased name that splits comes from a name that splits at the
    same place. *)
Lemma str_lower_split name p t :
  str_lower name = p +:+ t ->
  exists stem tail,
    name = stem +:+ tail /\ str_lower stem = p /\ str_lower tail = t.
Proof.
  revert name. induction p as [| c p IH]; intros name Hname.
  - exists EmptyString, name. repeat split. exact Hname.
  - destruct name as [| a name]; simpl in Hname; [discriminate |].
    injection Hname as Hc Hrest.
    destruct (IH name Hrest) as (stem & tail & -> & Hstem & Htail).
    exists (String a stem), tail. simpl. rewrite Hc, Hstem. repeat split.
    exact Htail.
Qed.

Lemma ascii_lower_capital (c : ascii) :
  is_capital c -> ascii_lower c = ascii_of_nat (nat_of_ascii c + 32).
Proof.
  intros [Hlo Hhi]. unfold ascii_lower.
  destruct (Nat.leb_spec 65 (nat_of_ascii c)); [| lia].
  destruct (Nat.leb_spec (nat_of_ascii c) 90); [reflexivity | lia].
Qed.

Lemma ascii_lower_other (c : ascii) : ~ is_capital c -> ascii_lower c = c.
Proof.
  intros Hc. unfold ascii_lower, is_capital in *.
  destruct (Nat.leb_spec 65 (nat_of_ascii c)); [| reflexivity].
  destruct (Nat.leb_spec (nat_of_ascii c) 90); [lia | reflexivity].
Qed.

Lemma is_capital_dec (c : ascii) : {is_capital c} + {~ is_capital c}.
Proof.
  unfold is_capital.
  destruct (le_dec 65 (nat_of_ascii c)); [| right; lia].
  destruct (le_dec (nat_of_ascii c) 90); [left; lia | right; lia].
Defined.

(** The small letter of a capital, read back as a number. *)
Lemma nat_of_small (c : ascii) :
  is_capital c ->
  nat_of_ascii (ascii_of_nat (nat_of_ascii c + 32)) = (nat_of_ascii c + 32)%nat.
Proof. intros [_ Hhi]. apply nat_ascii_embedding. lia. Qed.

Lemma nat_of_ascii_inj (a b : ascii) : nat_of_ascii a = nat_of_ascii b -> a = b.
Proof.
  intros H. rewrite <- (ascii_nat_embedding a), <- (ascii_nat_embedding b), H.
  reflexivity.
Qed.

(** Lower-casing identifies exactly the characters that are the same
    letter up to case. *)
Lemma same_letter_iff_lower (a b : ascii) :
  same_letter a b <-> ascii_lower a = ascii_lower b.
Proof.
  split.
  - intros [c | u l Hu Hl | l u Hu Hl].
    + reflexivity.
    + rewrite (ascii_lower_capital u Hu), <- Hl, ascii_nat_embedding.
      symmetry. apply ascii_lower_other. unfold is_capital in *. lia.
    + rewrite (ascii_lower_capital u Hu), <- Hl, ascii_nat_embedding.
      apply ascii_lower_other. unfold is_capital in *. lia.
  - intros Heq.
    destruct (is_capital_dec a) as [Ha | Ha], (is_capital_dec b) as [Hb | Hb].
    + rewrite (ascii_lower_capital a Ha), (ascii_lower_capital b Hb) in Heq.
      apply (f_equal nat_of_ascii) in Heq.
      rewrite (nat_of_small a Ha), (nat_of_small b Hb) in Heq.
      assert (a = b) as -> by (apply nat_of_ascii_inj; lia).
      constructor.
    + rewrite (ascii_lower_capital a Ha), (ascii_lower_other b Hb) in Heq.
      apply same_letter_capital_small; [exact Ha |].
      rewrite <- Heq. apply nat_of_small. exact Ha.
    + rewrite (ascii_lower_other a Ha), (ascii_lower_capital b Hb) in Heq.
      apply same_letter_small_capital; [exact Hb |].
      rewrite Heq. apply nat_of_small. exact Hb.
    + rewrite (ascii_lower_other a Ha), (ascii_lower_other b Hb) in Heq.
      subst b. constructor.
Qed.

Lemma ci_equal_iff_lower s t : ci_equal s t <-> str_lower s = str_lower t.
Proof.
  split.
  - induction 1 as [| a b s t Hab _ IH]; simpl; [reflexivity |].
    apply same_letter_iff_lower in Hab. rewrite Hab, IH. reflexivity.
  - revert t. induction s as [| a s IH]; intros [| b t] Heq; simpl in Heq;
      try discriminate.
    + constructor.
    + injection Heq as Hab Hst.
      constructor; [apply same_letter_iff_lower; exact Hab | apply IH; exact Hst].
Qed.

(** The handler's test on one extension written in lower case agrees with
    the interface wording. *)
Lemma lower_endswith_iff name ext :
  str_lower ext = ext ->
  str_endswith (str_lower name) ext = true <-> ends_with_ci name ext.
Proof.
  intros Hext. rewrite str_endswith_iff. unfold ends_with_ci. split.
  - intros [p Hp].
    destruct (str_lower_split name p ext Hp) as (stem & tail & -> & _ & Htail).
    exists stem, tail. split; [reflexivity |].
    apply ci_equal_iff_lower. rewrite Hext. exact Htail.
  - intros (stem & tail & -> & Hci).
    exists (str_lower stem). rewrite str_lower_app.
    apply ci_equal_iff_lower in Hci. rewrite Hci, Hext. reflexivity.
Qed.

(** Line 162 accepts exactly the names with an accepted extension. *)
Lemma extension_check_iff name :
  str_endswith_any (str_lower name) accepted_extensions = true
  <-> accepted_extension name.
Proof.
  unfold str_endswith_any, accepted_extensions, accepted_extension.
  cbn [existsb]. rewrite !orb_true_iff.
  rewrite !lower_endswith_iff by reflexivity.
  split; [| tauto]. intros [H | [H | [H | H]]]; [tauto | tauto | tauto | discriminate].
Qed.

Lemma extension_check_false name :
  str_endswith_any (str_lower name) accepted_extensions = false
  <-> ~ accepted_extension name.
Proof.
  rewrite <- extension_check_iff.
  destruct (str_endswith_any (str_lower name) accepted_extensions);
    split; congruence.
Qed.
End FileNameFacts.

(** ** The temporary file of [_process_sync] *)

Section DecoderFacts.
Context {L : Libraries}.

(** The [finally] block of [_process_sync] once the file is known to be
    there: [os.path.exists] answers yes and [os.unlink] removes it. *)
Local Ltac run_cleanup :=
  rewrite ?lookup_insert_eq;
  rewrite bool_decide_eq_true_2 by (eexists; reflexivity);
  cbn [files trace]; rewrite ?lookup_insert_eq;
  rewrite <- ?app_assoc; reflexivity.

(** The [with] block of lines 134-136, by cases on the write: the file is
    created under the name [tempfile] chose with suffix [.mp3] and receives
    the uploaded bytes, all of them when the write and the close return, a
    prefix when one of them raises. *)
Lemma temp_file_block_run (file_content : list Byte.byte) (w : world) :
  temp_file_block file_content w
  = match temp_write_fault (temp_name w) file_content with
    | None =>
        (World (<[temp_name w := file_content]> (<[temp_name w := []]> (files w)))
               (trace w ++ [EvTempCreate (temp_name w);
                            EvTempWrite (temp_name w) (len file_content)]),
         ok (temp_name w))
    | Some (e, n) =>
        (World (<[temp_name w := take n file_content]>
                  (<[temp_name w := []]> (files w)))
               (trace w ++ [EvTempCreate (temp_name w);
                            EvTempWrite (temp_name w)
                              (len (take n file_content))]),
         raise e)
    end.
Proof.
  unfold temp_file_block, wbind, NamedTemporaryFile, temp_file_write, wret,
    ok, raise.
  fold (temp_name w). cbn [files trace].
  destruct (temp_write_fault (temp_name w) file_content) as [[e n] |];
    rewrite <- app_assoc; reflexivity.
Qed.

(** What one run of [_process_sync] does, step by step.  When the write
    raises, that is all there is: the [try] block is never entered.
    Otherwise the file is decoded, preprocessed when decoding returned,
    and unlinked; the outcome is that of decoding followed by
    preprocessing. *)
Lemma process_sync_run (file_content : list Byte.byte) (w : world) :
  _process_sync file_content w
  = (World (upload_files (temp_name w) file_content (files w))
           (trace w ++ upload_steps (temp_name w) file_content),
     upload_outcome (temp_name w) file_content).
Proof.
  unfold _process_sync, wbind at 1. rewrite temp_file_block_run.
  unfold upload_files, upload_steps, upload_outcome.
  destruct (temp_write_fault (temp_name w) file_content) as [[e n] |];
    [reflexivity |].
  unfold try_finally, wbind, load_path, os_path_exists, os_unlink, wwhen,
    emit, lift, wret, ok, raise, decode_and_preprocess, process_steps,
    files_after.
  cbn [files trace]. rewrite lookup_insert_eq.
  destruct (librosa_load file_content) as [e | [audio_array sr]];
    cbn [files trace rbind].
  - run_cleanup.
  - destruct (preprocess_audio_data audio_array sr 16000 5) as [e | mel];
      cbn [files trace]; run_cleanup.
Qed.


(** C9, as the code behaves when [temp_file.write] (or the close that
    ends the [with] block) raises: lines 134-136 stand in front of the
    [try] of line 138, so the exception leaves [_process_sync] without
    reaching the [finally] block; the temporary file, created with
    [delete=False], is still on disk when the step exits, and no unlink
    was attempted. *)
Theorem process_sync_leaks_on_write_failure
    (file_content : list Byte.byte) (w : world) (e : exn) (n : nat) :
  temp_write_fault (temp_name w) file_content = Some (e, n) ->
  _process_sync file_content w
  = (World (<[temp_name w := take n file_content]>
              (<[temp_name w := []]> (files w)))
           (trace w ++ [EvTempCreate (temp_name w);
                        EvTempWrite (temp_name w) (len (take n file_content))]),
     raise e)
  /\ files (fst (_process_sync file_content w)) !! temp_name w
     = Some (take n file_content)
  /\ last (trace (fst (_process_sync file_content w)))
     <> Some (EvUnlink (temp_name w)).
Proof.
  intros Hwrite. rewrite process_sync_run.
  unfold upload_files, upload_steps, upload_outcome. rewrite Hwrite.
  cbn [fst snd files trace]. split; [reflexivity |]. split.
  - apply lookup_insert_eq.
  - rewrite last_app. simpl. discriminate.
Qed.

(** C10: whatever file name the upload carried, [process_audio_file]
    creates its temporary file under a name that ends with the fixed
    suffix [.mp3] and writes the uploaded bytes to it: when the [with]
    block returns, that file holds exactly those bytes, it is the file
    that is decoded, and the outcome is that of decoding and preprocessing
    those bytes; when the write raises, the file holds a prefix of them and
    the exception is the outcome.  The [filename] argument changes
    nothing: two calls that differ only in it do the same and return the
    same. *)
Theorem temp_file_suffix_ignores_filename
    (file_content : list Byte.byte) (filename1 filename2 : string) (w : world) :
  process_audio_file file_content filename1 w
  = process_audio_file file_content filename2 w
  /\ exists (name : string) (w1 : world),
       str_endswith name ".mp3" = true
       /\ EvTempCreate name ∈ trace w1
       /\ match temp_write_fault name file_content with
          | None =>
              temp_file_block file_content w = (w1, ok name)
              /\ files w1 !! name = Some file_content
              /\ EvDecode name
                   ∈ trace (fst (process_audio_file file_content filename1 w))
              /\ snd (process_audio_file file_content filename1 w)
                 = decode_and_preprocess file_content
          | Some (e, n) =>
              temp_file_block file_content w = (w1, raise e)
              /\ files w1 !! name = Some (take n file_content)
              /\ process_audio_file file_content filename1 w = (w1, raise e)
          end.
Proof.
  split; [reflexivity |].
  unfold process_audio_file, run_in_executor.
  rewrite process_sync_run, temp_file_block_run.
  unfold upload_files, upload_steps, upload_outcome.
  exists (temp_name w).
  destruct (temp_write_fault (temp_name w) file_content) as [[e n] |];
    eexists; (split; [apply str_endswith_iff; eexists; reflexivity |]).
  - split; [| split; [reflexivity |]; split; [apply lookup_insert_eq | reflexivity]].
    cbn [trace]. apply elem_of_app. right. apply elem_of_cons. left. reflexivity.
  - split; [| split; [reflexivity |]; split; [apply lookup_insert_eq |]].
    + cbn [trace]. apply elem_of_app. right. apply elem_of_cons. left.
      reflexivity.
    + split; [| reflexivity]. cbn [fst trace]. unfold process_steps.
      apply elem_of_app. right. apply elem_of_app. left.
      apply elem_of_cons. right. apply elem_of_cons. right.
      apply elem_of_cons. left. reflexivity.
Qed.
End DecoderFacts.

(** An upload of 65 bytes into a temporary directory with room for 64. *)
Lemma process_sync_leaks_on_write_failure_witness :
  files (fst (_process_sync (L := Demo.libs) Demo.long_payload Demo.empty_world))
    !! "/tmp/tmpk3x9q2ab.mp3"%string
  = Some (take 64 Demo.long_payload)
  /\ snd (_process_sync (L := Demo.libs) Demo.long_payload Demo.empty_world)
     = raise (LibraryError "OSError: [Errno 28] No space left on device").
Proof.
  destruct (process_sync_leaks_on_write_failure (L := Demo.libs)
              Demo.long_payload Demo.empty_world
              (LibraryError "OSError: [Errno 28] No space left on device")
              64%nat) as (Hrun & Hfile & _).
  - reflexivity.
  - split; [exact Hfile | rewrite Hrun; reflexivity].
Defined.


(** The three ways out of [_process_sync], run on the demonstration
    libraries from an empty file system: a decoded and preprocessed upload,
    a payload the decoder refuses, and a signal the denoiser refuses.  No
    file is left in any of them.  A fourth run, of a payload the temporary
    directory cannot take, ends in the [with] block and leaves its file. *)
Example process_sync_success :
  let '(w, r) := _process_sync (L := Demo.libs) [Byte.x01; Byte.x02] Demo.empty_world in
  files w = ∅ /\ r = ok [40; 157; 1].
Proof. vm_compute. split; reflexivity. Qed.

Example process_sync_decode_failure :
  let '(w, r) := _process_sync (L := Demo.libs) [] Demo.empty_world in
  files w = ∅ /\ r = raise (LibraryError "NoBackendError").
Proof. vm_compute. split; reflexivity. Qed.

Example process_sync_downstream_exception :
  let '(w, r) := _process_sync (L := Demo.libs) [Byte.x00] Demo.empty_world in
  files w = ∅ /\ r = raise (LibraryError "ValueError: noise profile").
Proof. vm_compute. split; reflexivity. Qed.

Example process_sync_write_failure :
  let '(w, r) := _process_sync (L := Demo.libs) Demo.long_payload Demo.empty_world in
  files w = {[ "/tmp/tmpk3x9q2ab.mp3"%string := take 64 Demo.long_payload ]}
  /\ r = raise (LibraryError "OSError: [Errno 28] No space left on device").
Proof. vm_compute. split; reflexivity. Qed.

(** ** The request handler *)

Section HandlerFacts.
Context {L : Libraries}.
Implicit Types (file : UploadFile) (w : world).

(** Line 162 and the [raise] under it. *)
Lemma predict_audio_bad_extension (model : option keras_model) file w :
  ~ accepted_extension (filename file) ->
  predict_audio model file w = (w, raise bad_extension_response).
Proof.
  intros Hbad. apply extension_check_false in Hbad.
  unfold predict_audio, wbind, now, wwhen. rewrite Hbad. reflexivity.
Qed.

(** Past line 162 the handler continues with the model check. *)
Lemma predict_audio_no_model file w :
  accepted_extension (filename file) ->
  predict_audio None file w = (w, raise model_not_loaded_response).
Proof.
  intros Hgood. apply extension_check_iff in Hgood.
  unfold predict_audio, wbind, now, wwhen. rewrite Hgood. reflexivity.
Qed.

(** Whatever the [try] block does, the [except Exception] clause turns
    every exception into a 500: nothing leaves the block with another
    error status. *)
Lemma try_except_status {A} (body : M A) (detail : exn -> string) w :
  let r := snd (try_except body
                  (fun e => wraise (HTTPException 500 (detail e))) w) in
  http_status r = 200 \/ http_status r = 500.
Proof.
  unfold try_except, wraise. destruct (body w) as [w1 [e | a]]; simpl.
  - right. reflexivity.
  - left. reflexivity.
Qed.

Lemma predict_audio_loaded_status (model : keras_model) file w :
  accepted_extension (filename file) ->
  let r := snd (predict_audio (Some model) file w) in
  http_status r = 200 \/ http_status r = 500.
Proof.
  intros Hgood. apply extension_check_iff in Hgood.
  unfold predict_audio, wbind at 1 2, now, wwhen. rewrite Hgood.
  cbn [negb wret]. apply try_except_status.
Qed.

(** The handler answers 200, 400 or 500 and nothing else. *)
Lemma predict_audio_status (model : option keras_model) file w :
  let r := snd (predict_audio model file w) in
  http_status r = 200 \/ http_status r = 400 \/ http_status r = 500.
Proof.
  destruct (str_endswith_any (str_lower (filename file)) accepted_extensions)
    eqn:Hext.
  - apply extension_check_iff in Hext. destruct model as [model |].
    + destruct (predict_audio_loaded_status model file w Hext) as [H | H];
        simpl; rewrite H; tauto.
    + rewrite predict_audio_no_model by assumption. right. right. reflexivity.
  - apply extension_check_false in Hext.
    rewrite predict_audio_bad_extension by assumption. right. left. reflexivity.
Qed.

(** C5: for every request with an accepted extension, if no model has been
    loaded the handler raises the 500 "Model not loaded" error, and it does
    so with the world exactly as it found it: the body has not been read,
    nothing was decoded, normalised or extracted. *)
Theorem model_not_loaded_checked_first file w :
  accepted_extension (filename file) ->
  predict_audio None file w
  = (w, raise (HTTPException 500
                 "Model not loaded. Please check server configuration."))
  /\ http_status (snd (predict_audio None file w)) = 500
  /\ trace (fst (predict_audio None file w)) = trace w.
Proof.
  intros Hgood. rewrite predict_audio_no_model by assumption.
  repeat split.
Qed.

(** C6: the handler answers 400 exactly for the file names that do not
    end, ignoring case, with [.mp3], [.wav] or [.m4a]; such a request is
    rejected with the world as it was: the content has not been read and
    no inference has run. *)
Theorem bad_extension_400_iff (model : option keras_model) file w :
  (http_status (snd (predict_audio model file w)) = 400
   <-> ~ accepted_extension (filename file))
  /\ (~ accepted_extension (filename file) ->
      predict_audio model file w
      = (w, raise (HTTPException 400
                     "Only audio files (.mp3, .wav, .m4a) are allowed"))).
Proof.
  split; [split |].
  - intros Hstatus Hgood. destruct model as [model |].
    + destruct (predict_audio_loaded_status model file w Hgood) as [H | H];
        rewrite H in Hstatus; discriminate.
    + rewrite predict_audio_no_model in Hstatus by assumption. discriminate.
  - intros Hbad. rewrite predict_audio_bad_extension by assumption. reflexivity.
  - apply predict_audio_bad_extension.
Qed.

(** C2, as the handler behaves: for a request with an accepted extension,
    a loaded model and a body above 50 MiB, nothing but the body read takes
    place (no decode, resample, denoise or spectrogram), yet the status is
    500 and not 413: the size check of lines 177-181 sits inside the [try]
    block, so the 413 it raises is caught by [except Exception] on line 202
    and replaced by a 500 whose detail quotes it. *)
Theorem oversized_upload_answered_500 (model : keras_model) file w :
  accepted_extension (filename file) ->
  MAX_FILE_SIZE < len (body file) ->
  predict_audio (Some model) file w
  = (World (files w) (trace w ++ [EvReadBody]),
     raise (HTTPException 500
              ("Error processing audio file: " +:+ exn_str file_too_large)))
  /\ http_status (snd (predict_audio (Some model) file w)) = 500
  /\ http_status (snd (predict_audio (Some model) file w)) <> 413.
Proof.
  intros Hgood Hbig. apply extension_check_iff in Hgood.
  assert (Hrun : predict_audio (Some model) file w
                 = (World (files w) (trace w ++ [EvReadBody]),
                    raise (HTTPException 500
                             ("Error processing audio file: "
                              +:+ exn_str file_too_large)))).
  { unfold predict_audio, wbind at 1 2, now, wwhen at 1. rewrite Hgood.
    cbn [negb wret].
    unfold try_except, wbind at 1, file_read, wbind at 1, emit, wret.
    cbn [ok].
    unfold wbind at 1, wwhen.
    destruct (Z.gtb_spec (len (body file)) MAX_FILE_SIZE) as [_ | Hle]; [| lia].
    reflexivity. }
  rewrite Hrun. split; [reflexivity |]. split; [reflexivity | discriminate].
Qed.
End HandlerFacts.

(** A request named [song.MP3] while no model is loaded. *)
Lemma model_not_loaded_checked_first_witness :
  accepted_extension "song.MP3"
  /\ predict_audio (L := Demo.libs) None
       (Demo.upload "song.MP3" [Byte.x01; Byte.x02]) Demo.empty_world
     = (Demo.empty_world, raise model_not_loaded_response).
Proof.
  assert (Hgood : accepted_extension "song.MP3")
    by (apply extension_check_iff; reflexivity).
  split; [exact Hgood |].
  apply (model_not_loaded_checked_first (L := Demo.libs)
           (Demo.upload "song.MP3" [Byte.x01; Byte.x02]) Demo.empty_world Hgood).
Defined.

(** An upload of 50 MiB plus one byte, named [dawn.mp3], with the
    demonstration model loaded. *)
Lemma oversized_upload_answered_500_witness :
  accepted_extension (filename Demo.oversized_upload)
  /\ MAX_FILE_SIZE < len (body Demo.oversized_upload)
  /\ http_status
       (snd (predict_audio (L := Demo.libs) (Some Demo.model)
               Demo.oversized_upload Demo.empty_world)) = 500.
Proof.
  assert (Hgood : accepted_extension (filename Demo.oversized_upload))
    by (apply extension_check_iff; reflexivity).
  assert (Hbig : MAX_FILE_SIZE < len (body Demo.oversized_upload)).
  { unfold Demo.oversized_upload, Demo.upload, body, len.
    rewrite length_replicate. unfold MAX_FILE_SIZE. lia. }
  split; [exact Hgood |]. split; [exact Hbig |].
  apply (oversized_upload_answered_500 (L := Demo.libs)
           Demo.model Demo.oversized_upload Demo.empty_world Hgood Hbig).
Defined.

(** Three requests against the demonstration libraries: a text file is
    turned away untouched, a short recording is classified, and a name
    without the dot is not an audio name. *)
Example predict_audio_text_file :
  predict_audio (L := Demo.libs) (Some Demo.model)
    (Demo.upload "notes.txt" [Byte.x01]) Demo.empty_world
  = (Demo.empty_world, raise bad_extension_response).
Proof. reflexivity. Qed.

Example predict_audio_short_recording :
  let '(w, r) := predict_audio (L := Demo.libs) (Some Demo.model)
                   (Demo.upload "Robin.WAV" [Byte.x01; Byte.x02])
                   Demo.empty_world in
  files w = ∅ /\ http_status r = 200
  /\ rbind r (fun response => ok (ebird_code response)) = ok "barant1"%string.
Proof. vm_compute. repeat split. Qed.

Example extension_needs_the_dot : ~ accepted_extension "mp3".
Proof. apply extension_check_false. reflexivity. Qed.

(** * Further properties of the code *)

(** ** More on [pad_or_trim] and [preprocess_audio_data] *)

Section NormalizerMore.
Context {L : Libraries}.
Implicit Types (a : list sample) (sr max_len : Z).

(** Running [pad_or_trim] on its own output changes nothing. *)
Theorem pad_or_trim_idempotent a sr max_len :
  0 <= max_len * sr ->
  pad_or_trim (pad_or_trim a sr max_len) sr max_len = pad_or_trim a sr max_len.
Proof.
  intros Hnn. pose proof (pad_or_trim_len a sr max_len Hnn) as Hlen.
  rewrite (pad_or_trim_long (pad_or_trim a sr max_len)) by lia.
  apply take_ge. unfold len in Hlen. lia.
Qed.

(** Only the first [desired_len] samples of the input matter: cutting the
    input there beforehand gives the same output. *)
Theorem pad_or_trim_ignores_tail a sr max_len :
  0 <= max_len * sr ->
  pad_or_trim (take (Z.to_nat (max_len * sr)) a) sr max_len
  = pad_or_trim a sr max_len.
Proof.
  intros Hnn. destruct (Z.lt_ge_cases (len a) (max_len * sr)) as [Hlt | Hge].
  - rewrite take_ge; [reflexivity |]. unfold len in Hlt. lia.
  - rewrite (pad_or_trim_long a) by lia.
    rewrite pad_or_trim_long by (rewrite len_take; lia).
    apply take_idemp.
Qed.

(** For an integer [max_len] and an integer [sampling_rate], as every call
    in the repository passes them and on whose product the [int()] of
    line 44 is the identity: a negative [max_len * sampling_rate] is not
    an error and never pads; [a[:desired_len]] drops the last
    [-desired_len] samples, leaving nothing when the input is no longer
    than that. *)
Theorem pad_or_trim_negative_length a sr max_len :
  max_len * sr < 0 ->
  pad_or_trim a sr max_len = take (Z.to_nat (len a + max_len * sr)) a
  /\ len (pad_or_trim a sr max_len) = Z.max 0 (len a + max_len * sr)
  /\ (len a <= - (max_len * sr) -> pad_or_trim a sr max_len = []).
Proof.
  intros Hneg.
  assert (Heq : pad_or_trim a sr max_len
                = take (Z.to_nat (len a + max_len * sr)) a).
  { unfold pad_or_trim, slice_to.
    destruct (Z.ltb_spec (len a) (max_len * sr)) as [Hlt | _];
      [unfold len in Hlt; lia |].
    destruct (Z.ltb_spec (max_len * sr) 0) as [_ | Hge]; [reflexivity | lia]. }
  rewrite Heq. split; [reflexivity |]. split.
  - unfold len. rewrite length_take. unfold len. lia.
  - intros Hshort. replace (Z.to_nat (len a + max_len * sr)) with 0%nat by lia.
    reflexivity.
Qed.

(** Whenever [preprocess_audio_data], called as [_process_sync] calls it,
    returns a mel-spectrogram, that spectrogram was computed by
    [to_melspectrogram] at 16 kHz with 40 mel bands from a waveform of
    exactly 80000 samples. *)
Theorem preprocess_feeds_fixed_length a sr (t : tensor) :
  preprocess_audio_data a sr 16000 5 = ok t ->
  exists y : list sample,
    normalized_waveform a sr 16000 5 = ok y
    /\ len y = 80000
    /\ to_melspectrogram y 16000 40 = ok t.
Proof.
  unfold preprocess_audio_data. rewrite normalized_waveform_outcome.
  destruct (resample_if_needed a sr 16000) as [e | r]; [discriminate |].
  destruct (denoise_audio r 16000) as [e | d]; [discriminate |].
  cbn [rbind ok]. intros Hmel. exists (pad_or_trim d 16000 5).
  split; [reflexivity |]. split; [| exact Hmel].
  rewrite pad_or_trim_len; lia.
Qed.
End NormalizerMore.

Lemma pad_or_trim_idempotent_witness :
  pad_or_trim (L := Demo.libs) (pad_or_trim (L := Demo.libs) [7; 8; 9] 4 2) 4 2
  = [7; 8; 9; 0; 0; 0; 0; 0].
Proof.
  rewrite (pad_or_trim_idempotent (L := Demo.libs) [7; 8; 9] 4 2) by lia.
  reflexivity.
Defined.

Lemma pad_or_trim_ignores_tail_witness :
  pad_or_trim (L := Demo.libs) (take (Z.to_nat (1 * 2)) [7; 8; 9]) 2 1
  = pad_or_trim (L := Demo.libs) [7; 8; 9] 2 1.
Proof.
  apply (pad_or_trim_ignores_tail (L := Demo.libs) [7; 8; 9] 2 1). lia.
Defined.

Lemma pad_or_trim_negative_length_witness :
  pad_or_trim (L := Demo.libs) [7; 8; 9] 1 (-1) = [7; 8]
  /\ pad_or_trim (L := Demo.libs) [7; 8; 9] 1 (-5) = [].
Proof.
  split.
  - destruct (pad_or_trim_negative_length (L := Demo.libs) [7; 8; 9] 1 (-1))
      as [Heq _]; [lia |].
    rewrite Heq. reflexivity.
  - destruct (pad_or_trim_negative_length (L := Demo.libs) [7; 8; 9] 1 (-5))
      as (_ & _ & Hnil); [lia |].
    apply Hnil. vm_compute. discriminate.
Defined.

Lemma preprocess_feeds_fixed_length_witness :
  exists y : list Z,
    normalized_waveform (L := Demo.libs) [7; 8; 9] 8000 16000 5 = ok y
    /\ len y = 80000.
Proof.
  destruct (preprocess_feeds_fixed_length (L := Demo.libs)
              [7; 8; 9] 8000 [40; 157; 1]) as (y & Hy & Hlen & _).
  - vm_compute. reflexivity.
  - exists y. split; assumption.
Defined.

(** ** More on the classifier adapter *)

Section ClassifierMore.
Context {L : Libraries}.

(** The label is looked up at the position of the first maximum of the
    model's output whatever the length of that output: nothing checks that
    the model has ten outputs.  A position below ten gives that entry of
    [class_names]; a position of ten or more raises [IndexError]. *)
Theorem inference_follows_argmax
    (mel_spec_db x : tensor) (model : keras_model) (row : list Q) :
  resize_to_model mel_spec_db model = ok x ->
  model_predict model (expand_dims_0 x) = ok [row] ->
  row <> [] ->
  exists (i : nat) (m : Q),
    np_argmax row = ok i /\ row !! i = Some m
    /\ ((i < 10)%nat ->
        exists label : string,
          class_names !! i = Some label
          /\ inference_from_melspec mel_spec_db model class_names
             = ok (label, m))
    /\ ((10 <= i)%nat ->
        inference_from_melspec mel_spec_db model class_names
        = raise (LibraryError "IndexError: list index out of range")).
Proof.
  intros Hx Hpred Hne.
  destruct (np_argmax_np_max row Hne) as (i & m & Hi & Hm & Hat & _).
  exists i, m. split; [exact Hi |]. split; [exact Hat |].
  assert (Hrun : inference_from_melspec mel_spec_db model class_names
                 = rbind (list_getitem class_names i) (fun name => ok (name, m))).
  { unfold inference_from_melspec. rewrite Hx. cbn [rbind ok].
    rewrite Hpred. cbn [rbind ok concat]. rewrite app_nil_r, Hi.
    cbn [rbind ok]. rewrite Hm. reflexivity. }
  rewrite Hrun. unfold list_getitem. split.
  - intros Hlt.
    destruct (lookup_lt_is_Some_2 class_names i) as [label Hlabel];
      [rewrite class_names_length; exact Hlt |].
    exists label. rewrite Hlabel. split; reflexivity.
  - intros Hge. rewrite (lookup_ge_None_2 class_names i); [reflexivity |].
    rewrite class_names_length. exact Hge.
Qed.

(** A model that returns no scores makes [np.argmax] raise [ValueError];
    no label is made up. *)
Theorem inference_empty_output
    (mel_spec_db x : tensor) (model : keras_model) (pred : list (list Q)) :
  resize_to_model mel_spec_db model = ok x ->
  model_predict model (expand_dims_0 x) = ok pred ->
  concat pred = [] ->
  inference_from_melspec mel_spec_db model class_names
  = raise (LibraryError
             "ValueError: attempt to get argmax of an empty sequence").
Proof.
  intros Hx Hpred Hempty. unfold inference_from_melspec.
  rewrite Hx. cbn [rbind ok]. rewrite Hpred. cbn [rbind ok].
  rewrite Hempty. reflexivity.
Qed.

(** The resize test of line 76 compares the model's height and width
    ([input_shape[1:3]]) with the second and third dimension of the
    spectrogram ([shape[1:3]], its frame count and channel count): the
    tensor is passed on untouched exactly when those agree, and is
    otherwise resized to the model's height and width. *)
Theorem resize_skipped_iff_dims_agree
    (mel_spec_db : tensor) (model : keras_model)
    (batch : option Z) (height width : Z) (rest : list (option Z))
    (n_mels frames channels : Z) :
  input_shape model = batch :: Some height :: Some width :: rest ->
  tensor_shape mel_spec_db = [n_mels; frames; channels] ->
  (height = frames /\ width = channels ->
     resize_to_model mel_spec_db model = ok mel_spec_db)
  /\ (~ (height = frames /\ width = channels) ->
       resize_to_model mel_spec_db model
       = tf_image_resize mel_spec_db [Some height; Some width]).
Proof.
  intros Hin Hshape. unfold resize_to_model, slice. rewrite Hin, Hshape.
  cbn [drop take fmap list_fmap Nat.sub]. split.
  - intros [-> ->]. rewrite bool_decide_eq_true_2 by reflexivity. reflexivity.
  - intros Hdiff. rewrite bool_decide_eq_false_2; [reflexivity |].
    intros Heq. apply Hdiff. injection Heq as -> ->. split; reflexivity.
Qed.
End ClassifierMore.

Lemma inference_follows_argmax_witness :
  inference_from_melspec (L := Demo.libs) [40; 157; 1]
    DemoArtifact.wide_model class_names
  = raise (LibraryError "IndexError: list index out of range").
Proof.
  destruct (inference_follows_argmax (L := Demo.libs) [40; 157; 1] [40; 157; 1]
              DemoArtifact.wide_model DemoArtifact.wide_scores)
    as (i & m & Hi & _ & _ & Hhigh).
  - reflexivity.
  - reflexivity.
  - discriminate.
  - apply Hhigh. vm_compute in Hi. injection Hi as <-. lia.
Defined.

Lemma inference_empty_output_witness :
  inference_from_melspec (L := Demo.libs) [40; 157; 1]
    DemoArtifact.silent_model class_names
  = raise (LibraryError
             "ValueError: attempt to get argmax of an empty sequence").
Proof.
  apply (inference_empty_output (L := Demo.libs) [40; 157; 1] [40; 157; 1]
           DemoArtifact.silent_model []); reflexivity.
Defined.

Lemma resize_skipped_iff_dims_agree_witness :
  resize_to_model (L := Demo.libs) [40; 157; 1] Demo.model
  = @tf_image_resize Demo.libs [40; 157; 1] [Some 40; Some 157].
Proof.
  destruct (resize_skipped_iff_dims_agree (L := Demo.libs) [40; 157; 1]
              Demo.model None 40 157 [Some 1] 40 157 1) as [_ Hresize].
  - reflexivity.
  - reflexivity.
  - apply Hresize. intros [H _]. discriminate.
Defined.

(** ** More on the request handler *)

Section HandlerMore.
Context {L : Libraries}.
Implicit Types (file : UploadFile) (w : world).

(** [_process_sync] in the vocabulary of the statements below. *)
Lemma process_audio_file_run (file_content : list Byte.byte) (name : string) w :
  process_audio_file file_content name w
  = (World (upload_files (temp_name w) file_content (files w))
           (trace w ++ upload_steps (temp_name w) file_content),
     upload_outcome (temp_name w) file_content).
Proof.
  unfold process_audio_file, run_in_executor. apply process_sync_run.
Qed.

(** A request that passes the three gates (extension, model, size), from
    the body read to the response. *)
Lemma predict_audio_run (model : keras_model) file w :
  accepted_extension (filename file) ->
  len (body file) <= MAX_FILE_SIZE ->
  let fs := upload_files (temp_name w) (body file) (files w) in
  let tr := (trace w ++ [EvReadBody])
              ++ upload_steps (temp_name w) (body file) in
  predict_audio (Some model) file w
  = match upload_outcome (temp_name w) (body file) with
    | inl e => (World fs tr, raise (processing_error e))
    | inr mel_spec_db =>
        match inference_from_melspec mel_spec_db model class_names with
        | inl e => (World fs (tr ++ [EvInference]), raise (processing_error e))
        | inr (label, conf) =>
            (World fs (tr ++ [EvInference]),
             ok {| ebird_code := label;
                   confidence := conf;
                   processing_time :=
                     datetime_now (tr ++ [EvInference])
                     - datetime_now (trace w) |})
        end
    end.
Proof.
  intros Hgood Hsize fs tr. apply extension_check_iff in Hgood.
  unfold predict_audio, wbind at 1 2, now, wwhen at 1. rewrite Hgood.
  cbn [negb wret].
  unfold try_except, wbind at 1, file_read, wbind at 1, emit, wret.
  cbn [ok]. unfold wbind at 1, wwhen.
  destruct (Z.gtb_spec (len (body file)) MAX_FILE_SIZE) as [Hgt | _]; [lia |].
  cbn [wret ok]. unfold wbind at 1. rewrite process_audio_file_run.
  unfold temp_name. cbn [files trace]. fold (temp_name w). fold fs. fold tr.
  destruct (upload_outcome (temp_name w) (body file)) as [e | mel_spec_db];
    [reflexivity |].
  unfold wbind, run_in_executor, emit, lift, wret, ok. cbn [files trace].
  destruct (inference_from_melspec mel_spec_db model class_names)
    as [e | [label conf]]; reflexivity.
Qed.

(** The size gate on its own: what an oversized body leads to. *)
Lemma predict_audio_oversized_run (model : keras_model) file w :
  accepted_extension (filename file) ->
  MAX_FILE_SIZE < len (body file) ->
  predict_audio (Some model) file w
  = (World (files w) (trace w ++ [EvReadBody]),
     raise (processing_error file_too_large)).
Proof.
  intros Hgood Hbig. apply extension_check_iff in Hgood.
  unfold predict_audio, wbind at 1 2, now, wwhen at 1. rewrite Hgood.
  cbn [negb wret].
  unfold try_except, wbind at 1, file_read, wbind at 1, emit, wret.
  cbn [ok]. unfold wbind at 1, wwhen.
  destruct (Z.gtb_spec (len (body file)) MAX_FILE_SIZE) as [_ | Hle]; [| lia].
  reflexivity.
Qed.
End HandlerMore.

Section HandlerOutcomes.
Context {L : Libraries}.
Implicit Types (file : UploadFile) (w : world).







(** A request that passed the three gates leaves the files as
    [_process_sync] left them. *)
Lemma predict_audio_gated_files (model : keras_model) file w :
  accepted_extension (filename file) ->
  len (body file) <= MAX_FILE_SIZE ->
  files (fst (predict_audio (Some model) file w))
  = upload_files (temp_name w) (body file) (files w).
Proof.
  intros Hgood Hsize. rewrite predict_audio_run by assumption.
  destruct (upload_outcome (temp_name w) (body file)) as [e | mel_spec_db];
    [reflexivity |].
  destruct (inference_from_melspec mel_spec_db model class_names)
    as [e | [label conf]]; reflexivity.
Qed.

(** The handler either leaves the files alone or leaves them as
    [_process_sync] did. *)
Lemma predict_audio_files (model : option keras_model) file w :
  files (fst (predict_audio model file w)) = files w
  \/ files (fst (predict_audio model file w))
     = upload_files (temp_name w) (body file) (files w).
Proof.
  destruct (str_endswith_any (str_lower (filename file)) accepted_extensions)
    eqn:Hext.
  - apply extension_check_iff in Hext. destruct model as [model |].
    + destruct (Z.lt_ge_cases MAX_FILE_SIZE (len (body file))) as [Hbig | Hok].
      * rewrite predict_audio_oversized_run by assumption. left. reflexivity.
      * right. apply predict_audio_gated_files; [assumption | lia].
    + rewrite predict_audio_no_model by assumption. left. reflexivity.
  - apply extension_check_false in Hext.
    rewrite predict_audio_bad_extension by assumption. left. reflexivity.
Qed.


Lemma temp_name_not_model_path w : temp_name w <> MODEL_PATH.
Proof.
  intros Heq.
  assert (Hmp3 : str_endswith (temp_name w) ".mp3" = true)
    by (apply str_endswith_iff; eexists; reflexivity).
  rewrite Heq in Hmp3. discriminate.
Qed.

(** No request can delete or overwrite the model artifact, whatever name
    [tempfile] picks: the temporary name ends in [.mp3], the artifact's
    does not. *)
Theorem predict_audio_keeps_model_artifact (model : option keras_model) file w :
  files (fst (predict_audio model file w)) !! MODEL_PATH
  = files w !! MODEL_PATH.
Proof.
  pose proof (temp_name_not_model_path w) as Hne.
  destruct (predict_audio_files model file w) as [-> | ->]; [reflexivity |].
  unfold upload_files, files_after.
  destruct (temp_write_fault (temp_name w) (body file)) as [[e n] |].
  - rewrite !lookup_insert_ne by exact Hne. reflexivity.
  - rewrite lookup_delete_ne, !lookup_insert_ne by exact Hne. reflexivity.
Qed.
End HandlerOutcomes.





(** A request whose upload does not fit the temporary directory: the
    write raises, the answer is 500, and the temporary file is still
    there afterwards. *)
Example predict_audio_disk_full :
  let '(w, r) := predict_audio (L := Demo.libs) (Some Demo.model)
                   (Demo.upload "long.mp3" Demo.long_payload)
                   Demo.empty_world in
  files w !! "/tmp/tmpk3x9q2ab.mp3"%string = Some (take 64 Demo.long_payload)
  /\ r = raise (HTTPException 500
                  "Error processing audio file: OSError: [Errno 28] No space left on device").
Proof. vm_compute. split; reflexivity. Qed.

(** ** File names at the gate *)

Section NameGate.
Context {L : Libraries}.
Implicit Types (name : string) (w : world).

Lemma ci_equal_length (s t : string) :
  ci_equal s t -> String.length s = String.length t.
Proof. induction 1 as [| a b s t _ _ IH]; simpl; [reflexivity | rewrite IH; reflexivity]. Qed.

Lemma accepted_extension_length name :
  accepted_extension name -> (4 <= String.length name)%nat.
Proof.
  intros [H | [H | H]]; destruct H as (stem & tail & -> & Hci);
    apply ci_equal_length in Hci; rewrite str_length_app, Hci; simpl; lia.
Qed.

(** Past the extension gate the file name plays no part. *)
Lemma predict_audio_name_irrelevant
    (model : option keras_model) (name1 name2 : string)
    (payload : list Byte.byte) w :
  accepted_extension name1 -> accepted_extension name2 ->
  predict_audio model {| filename := name1; body := payload |} w
  = predict_audio model {| filename := name2; body := payload |} w.
Proof.
  intros H1 H2. destruct model as [model |].
  - destruct (Z.lt_ge_cases MAX_FILE_SIZE (len payload)) as [Hbig | Hok].
    + rewrite !predict_audio_oversized_run by assumption. reflexivity.
    + rewrite !predict_audio_run by first [assumption | cbn [body]; lia].
      reflexivity.
  - rewrite !predict_audio_no_model by assumption. reflexivity.
Qed.

(** Every file name of fewer than four characters, the empty name
    included, is turned away with 400 before anything else happens. *)
Theorem short_name_rejected (model : option keras_model) (file : UploadFile) w :
  (String.length (filename file) < 4)%nat ->
  predict_audio model file w
  = (w, raise (HTTPException 400
                 "Only audio files (.mp3, .wav, .m4a) are allowed")).
Proof.
  intros Hshort. apply predict_audio_bad_extension.
  intros Hgood. apply accepted_extension_length in Hgood. lia.
Qed.

(** The extension is a gate and nothing more: two uploads with the same
    bytes and any two accepted names - [.wav] against [.mp3], say - are
    handled identically, step for step and in the answer. *)
Theorem accepted_names_interchangeable
    (model : option keras_model) (name1 name2 : string)
    (payload : list Byte.byte) w :
  accepted_extension name1 -> accepted_extension name2 ->
  predict_audio model {| filename := name1; body := payload |} w
  = predict_audio model {| filename := name2; body := payload |} w.
Proof. apply predict_audio_name_irrelevant. Qed.

(** Upper and lower case are not told apart anywhere in the name: two
    uploads with the same bytes whose names are equal up to case are
    handled identically. *)
Theorem name_case_irrelevant
    (model : option keras_model) (name1 name2 : string)
    (payload : list Byte.byte) w :
  ci_equal name1 name2 ->
  predict_audio model {| filename := name1; body := payload |} w
  = predict_audio model {| filename := name2; body := payload |} w.
Proof.
  intros Hci. apply ci_equal_iff_lower in Hci.
  destruct (str_endswith_any (str_lower name1) accepted_extensions) eqn:Hext.
  - apply predict_audio_name_irrelevant; apply extension_check_iff;
      first [exact Hext | rewrite <- Hci; exact Hext].
  - rewrite !predict_audio_bad_extension; [reflexivity | |];
      apply extension_check_false; cbn [filename];
      first [exact Hext | rewrite <- Hci; exact Hext].
Qed.
End NameGate.

Lemma short_name_rejected_witness :
  predict_audio (L := Demo.libs) (Some Demo.model)
    (Demo.upload "mp3" [Byte.x01]) Demo.empty_world
  = (Demo.empty_world, raise bad_extension_response).
Proof.
  apply (short_name_rejected (L := Demo.libs) (Some Demo.model)
           (Demo.upload "mp3" [Byte.x01]) Demo.empty_world).
  simpl. lia.
Defined.

Lemma accepted_names_interchangeable_witness :
  predict_audio (L := Demo.libs) (Some Demo.model)
    (Demo.upload "call.wav" [Byte.x01; Byte.x02]) Demo.empty_world
  = predict_audio (L := Demo.libs) (Some Demo.model)
      (Demo.upload "call.mp3" [Byte.x01; Byte.x02]) Demo.empty_world.
Proof.
  apply (accepted_names_interchangeable (L := Demo.libs) (Some Demo.model)
           "call.wav" "call.mp3" [Byte.x01; Byte.x02] Demo.empty_world);
    apply extension_check_iff; reflexivity.
Defined.

Lemma name_case_irrelevant_witness :
  predict_audio (L := Demo.libs) (Some Demo.model)
    (Demo.upload "Call.WAV" [Byte.x01; Byte.x02]) Demo.empty_world
  = predict_audio (L := Demo.libs) (Some Demo.model)
      (Demo.upload "call.wav" [Byte.x01; Byte.x02]) Demo.empty_world.
Proof.
  apply (name_case_irrelevant (L := Demo.libs) (Some Demo.model)
           "Call.WAV" "call.wav" [Byte.x01; Byte.x02] Demo.empty_world).
  apply ci_equal_iff_lower. reflexivity.
Defined.

(** ** Start-up and health *)

Section StartupFacts.
Context {L : Libraries}.
Variable keras_load_model : list Byte.byte -> result keras_model.
Implicit Types (w : world) (model : option keras_model).

(** One run of [load_model], by cases on the artifact and the loader. *)
Lemma load_model_run model w :
  load_model keras_load_model model w
  = (w, ok match files w !! MODEL_PATH with
           | Some bytes =>
               match keras_load_model bytes with
               | inr loaded => Some loaded
               | inl _ => model
               end
           | None => model
           end).
Proof.
  unfold load_model, try_except, wbind, os_path_exists, load_model_path,
    wret, ok.
  destruct (files w !! MODEL_PATH) as [bytes |] eqn:Hfile.
  - rewrite bool_decide_eq_true_2 by (eexists; reflexivity).
    rewrite Hfile. destruct (keras_load_model bytes); reflexivity.
  - rewrite bool_decide_eq_false_2 by (intros [x Hx]; discriminate).
    reflexivity.
Qed.

(** [load_model] never raises and changes nothing but the global: the
    model becomes the loaded one when the artifact exists and loads, and
    stays what it was when the artifact is missing or the loader raises. *)
Theorem load_model_never_raises model w :
  load_model keras_load_model model w
  = (w, ok match files w !! MODEL_PATH with
           | Some bytes =>
               match keras_load_model bytes with
               | inr loaded => Some loaded
               | inl _ => model
               end
           | None => model
           end).
Proof. apply load_model_run. Qed.

Lemma health_check_run model w :
  health_check model w
  = (w, ok {| health_status := "healthy";
              model_loaded := match model with Some _ => true | None => false end;
              model_input_shape :=
                match model with
                | Some m => Some (input_shape m)
                | None => None
                end;
              health_class_names := class_names;
              timestamp := datetime_now (trace w) |}).
Proof. reflexivity. Qed.

(** A service started without a usable artifact - the file is missing, or
    the loader raises on it - starts all the same, and from then on never
    answers 200: accepted names get the 500 "Model not loaded", the others
    400; the health endpoint reports no model and no input shape. *)
Theorem service_without_model w :
  (files w !! MODEL_PATH = None
   \/ exists (bytes : list Byte.byte) (e : exn),
        files w !! MODEL_PATH = Some bytes /\ keras_load_model bytes = raise e) ->
  exists model,
    lifespan_startup keras_load_model w = (w, ok model)
    /\ (forall (file : UploadFile) w',
          http_status (snd (predict_audio model file w')) <> 200)
    /\ (forall (file : UploadFile) w',
          accepted_extension (filename file) ->
          predict_audio model file w'
          = (w', raise (HTTPException 500
                          "Model not loaded. Please check server configuration.")))
    /\ (forall w',
          exists r : HealthResponse,
            health_check model w' = (w', ok r)
            /\ model_loaded r = false /\ model_input_shape r = None).
Proof.
  intros Hmissing. exists None. split; [| split; [| split]].
  - unfold lifespan_startup. rewrite load_model_run.
    destruct Hmissing as [-> | (bytes & e & -> & ->)]; reflexivity.
  - intros file w'.
    destruct (str_endswith_any (str_lower (filename file)) accepted_extensions)
      eqn:Hext.
    + apply extension_check_iff in Hext.
      rewrite predict_audio_no_model by assumption. discriminate.
    + apply extension_check_false in Hext.
      rewrite predict_audio_bad_extension by assumption. discriminate.
  - intros file w' Hgood. apply predict_audio_no_model. exact Hgood.
  - intros w'. eexists. rewrite health_check_run.
    split; [reflexivity |]. split; reflexivity.
Qed.

(** When the artifact exists and loads, the service holds that model, and
    the health endpoint reports it loaded together with the input shape of
    that very model. *)
Theorem service_with_model w (bytes : list Byte.byte) (loaded : keras_model) :
  files w !! MODEL_PATH = Some bytes ->
  keras_load_model bytes = ok loaded ->
  lifespan_startup keras_load_model w = (w, ok (Some loaded))
  /\ (forall w',
        exists r : HealthResponse,
          health_check (Some loaded) w' = (w', ok r)
          /\ model_loaded r = true
          /\ model_input_shape r = Some (input_shape loaded)
          /\ health_class_names r = class_names).
Proof.
  intros Hfile Hload. split.
  - unfold lifespan_startup. rewrite load_model_run, Hfile, Hload.
    reflexivity.
  - intros w'. eexists. rewrite health_check_run.
    split; [reflexivity |]. repeat split.
Qed.
End StartupFacts.

Lemma service_without_model_witness :
  exists model : option (keras_model (L := Demo.libs)),
    lifespan_startup DemoArtifact.keras_load_model
      DemoArtifact.world_with_corrupt_artifact
    = (DemoArtifact.world_with_corrupt_artifact, ok model)
    /\ http_status
         (snd (predict_audio model (Demo.upload "Robin.WAV" [Byte.x01])
                 DemoArtifact.world_with_corrupt_artifact)) <> 200.
Proof.
  destruct (service_without_model (L := Demo.libs)
              DemoArtifact.keras_load_model
              DemoArtifact.world_with_corrupt_artifact)
    as (model & Hstart & Hnever & _).
  - right. exists [], (LibraryError "OSError: file signature not found").
    split; reflexivity.
  - exists model. split; [exact Hstart | apply Hnever].
Defined.

Lemma service_with_model_witness :
  lifespan_startup DemoArtifact.keras_load_model DemoArtifact.world_with_artifact
  = (DemoArtifact.world_with_artifact, ok (Some Demo.model)).
Proof.
  apply (service_with_model (L := Demo.libs) DemoArtifact.keras_load_model
           DemoArtifact.world_with_artifact [Byte.x89; Byte.x48] Demo.model);
    reflexivity.
Defined.
